(** * HttpApiPrivateIntegrationEcsStack

    A shallow embedding of [lib/http-api-private-integration-ecs-stack.ts]:
    the stack class, its three fields, its constructor and its five
    [setup...] methods, together with the part of the construct library
    that those methods call.

    The constructs are mutable objects that the methods create, keep in
    fields or locals, pass around and mutate ([addIngressRule],
    [addAction], [registerLoadBalancerTargets]).  They are modelled as
    entries of a construct tree addressed by their path; fields, locals
    and references between constructs hold such paths.  A method is a
    computation over the stack that may throw. *)

From Stdlib Require Import ZArith Lia.
From stdpp Require Import base decidable option strings list sets.

Open Scope string_scope.

(** ** Values of the construct library *)

Module SubnetType.
Inductive t := PUBLIC | PRIVATE_WITH_EGRESS | PRIVATE_ISOLATED.
End SubnetType.

#[global] Instance SubnetType_eq_dec : EqDecision SubnetType.t.
Proof. solve_decision. Defined.

(** Where the default route of a subnet leads, if it has one. *)
Inductive Gateway := InternetGateway | NatGateway.

#[global] Instance Gateway_eq_dec : EqDecision Gateway.
Proof. solve_decision. Defined.

Record Subnet := mkSubnet {
  subnetType : SubnetType.t;
  availabilityZone : string;
  ipv4CidrBlock : string;
  defaultRoute : option Gateway
}.

#[global] Instance Subnet_eq_dec : EqDecision Subnet.
Proof. solve_decision. Defined.

(** [{subnetType: ...}]; the empty selection [{}] leaves the type open. *)
Record SubnetSelection := mkSubnetSelection {
  selSubnetType : option SubnetType.t
}.

(** Who may connect: any address, the addresses of a block, or the members
    of a security group. *)
Module Peer.
Inductive t := anyIpv4 | ipv4 (cidrIp : string) | securityGroupId (sg : string).
End Peer.

Module Port.
Inductive t := tcp (port : nat).
End Port.

Module Protocol.
Inductive t := TCP | UDP.
End Protocol.

Module ApplicationProtocol.
Inductive t := HTTP | HTTPS.
End ApplicationProtocol.

Module HttpMethod.
Inductive t := ANY | DELETE | GET | HEAD | OPTIONS | PATCH | POST | PUT.
End HttpMethod.

#[global] Instance Peer_eq_dec : EqDecision Peer.t.
Proof. solve_decision. Defined.
#[global] Instance Port_eq_dec : EqDecision Port.t.
Proof. solve_decision. Defined.
#[global] Instance Protocol_eq_dec : EqDecision Protocol.t.
Proof. solve_decision. Defined.
#[global] Instance ApplicationProtocol_eq_dec : EqDecision ApplicationProtocol.t.
Proof. solve_decision. Defined.
#[global] Instance HttpMethod_eq_dec : EqDecision HttpMethod.t.
Proof. solve_decision. Defined.

(** An ingress rule of a security group: who may connect, and where. *)
Record IngressRule := mkIngressRule {
  rulePeer : Peer.t;
  ruleConnection : Port.t
}.

#[global] Instance IngressRule_eq_dec : EqDecision IngressRule.
Proof. solve_decision. Defined.

Module ListenerAction.
Inductive t :=
| fixedResponse (statusCode : nat) (messageBody : string)
| forward (targetGroups : list string).
End ListenerAction.

Module ListenerCondition.
Inductive t := pathPatterns (values : list string).
End ListenerCondition.

#[global] Instance ListenerAction_eq_dec : EqDecision ListenerAction.t.
Proof. solve_decision. Defined.
#[global] Instance ListenerCondition_eq_dec : EqDecision ListenerCondition.t.
Proof. solve_decision. Defined.

(** [{name, port}] of an endpoint service. *)
Record VpcEndpointService := mkVpcEndpointService {
  serviceName : string;
  servicePort : nat
}.

Module ContainerImage.
Inductive t := fromEcrRepository (repository : string).
End ContainerImage.

Module LogDriver.
Inductive t := awsLogs (streamPrefix : string).
End LogDriver.

Record PortMapping := mkPortMapping {
  containerPort : nat;
  protocol : Protocol.t
}.

Record HealthCheck := mkHealthCheck {
  path : string
}.

(** What [service.loadBalancerTarget(...)] hands to a target group. *)
Record LoadBalancerTarget := mkLoadBalancerTarget {
  targetService : string;
  targetContainerName : string;
  targetContainerPort : nat
}.

Module HttpRouteKey.
Record t := with_ { routePath : string; routeMethod : HttpMethod.t }.
End HttpRouteKey.

(** [new HttpAlbIntegration(id, listener, {method, vpcLink})]: a plain
    object, not a construct; it refers to the listener and to the link. *)
Record HttpAlbIntegration := mkHttpAlbIntegration {
  integrationId : string;
  integrationListener : string;
  integrationMethod : HttpMethod.t;
  integrationVpcLink : string
}.

(** ** Constructs *)

Record Vpc := mkVpc {
  maxAzs : nat;
  natGateways : nat;
  vpcCidrBlock : string;
  availabilityZones : list string;
  subnets : list Subnet
}.

Record SecurityGroup := mkSecurityGroup {
  sgVpc : string;
  ingressRules : list IngressRule
}.

Record ApplicationLoadBalancer := mkApplicationLoadBalancer {
  albVpc : string;
  internetFacing : bool;
  albSubnets : list Subnet;
  albSecurityGroup : string
}.

Record ApplicationListener := mkApplicationListener {
  listenerLoadBalancer : string;
  listenerPort : nat;
  defaultAction : option ListenerAction.t
}.

Record ApplicationListenerRule := mkApplicationListenerRule {
  ruleListener : string;
  priority : Z;
  conditions : list ListenerCondition.t;
  action : ListenerAction.t
}.

Record ApplicationTargetGroup := mkApplicationTargetGroup {
  tgProtocol : option ApplicationProtocol.t;
  tgPort : nat;
  healthCheck : option HealthCheck;
  targets : list LoadBalancerTarget
}.

Record Cluster := mkCluster {
  clusterName : string;
  clusterVpc : string
}.

Record FargateTaskDefinition := mkFargateTaskDefinition {
  memoryLimitMiB : nat;
  cpu : nat
}.

Record ContainerDefinition := mkContainerDefinition {
  containerTaskDefinition : string;
  containerName : string;
  image : ContainerImage.t;
  logging : LogDriver.t;
  portMappings : list PortMapping
}.

Record Repository := mkRepository {
  repositoryName : string
}.

Record FargateService := mkFargateService {
  cluster : string;
  taskDefinition : string;
  desiredCount : nat;
  assignPublicIp : bool;
  serviceSubnets : list Subnet;
  serviceSecurityGroups : list string
}.

Record InterfaceVpcEndpoint := mkInterfaceVpcEndpoint {
  ifaceVpc : string;
  ifaceService : VpcEndpointService;
  ifaceSubnets : list Subnet;
  ifaceSecurityGroups : list string;
  privateDnsEnabled : bool
}.

Record GatewayVpcEndpoint := mkGatewayVpcEndpoint {
  gwVpc : string;
  gwService : VpcEndpointService;
  gwSubnets : list (list Subnet)
}.

Record VpcLink := mkVpcLink {
  linkVpc : string;
  vpcLinkName : string;
  linkSubnets : list Subnet
}.

Record HttpApi := mkHttpApi {
  apiName : string
}.

Record HttpRoute := mkHttpRoute {
  httpApi : string;
  integration : HttpAlbIntegration;
  routeKey : HttpRouteKey.t
}.

Inductive Construct :=
| CVpc (v : Vpc)
| CSecurityGroup (g : SecurityGroup)
| CApplicationLoadBalancer (b : ApplicationLoadBalancer)
| CApplicationListener (l : ApplicationListener)
| CApplicationListenerRule (r : ApplicationListenerRule)
| CApplicationTargetGroup (g : ApplicationTargetGroup)
| CCluster (c : Cluster)
| CFargateTaskDefinition (d : FargateTaskDefinition)
| CContainerDefinition (c : ContainerDefinition)
| CRepository (r : Repository)
| CFargateService (s : FargateService)
| CInterfaceVpcEndpoint (e : InterfaceVpcEndpoint)
| CGatewayVpcEndpoint (e : GatewayVpcEndpoint)
| CVpcLink (l : VpcLink)
| CHttpApi (a : HttpApi)
| CHttpRoute (r : HttpRoute).

(** ** The stack *)

(** What [super(scope, id, props)] resolves for the stack: the region it
    is deployed to and the availability zones that region offers. *)
Record Environment := mkEnvironment {
  region : string;
  zones : list string
}.

Record StackProps := mkStackProps {
  stackName : option string;
  description : option string;
  env : Environment
}.

(** What happened, in order: a construct was created under a path, or a
    listener received its default action. *)
Inductive Event :=
| Created (path : string)
| DefaultActionSet (listener : string) (a : ListenerAction.t).

#[global] Instance Event_eq_dec : EqDecision Event.
Proof. solve_decision. Defined.

(** [vpc], [internalAlb] and [internalAlbListener] are the private fields
    of the class; they are unset until a method assigns them.  [children]
    is the construct tree below the stack, in creation order. *)
Record Stack := mkStack {
  stackId : string;
  stackProps : StackProps;
  vpc : option string;
  internalAlb : option string;
  internalAlbListener : option string;
  children : list (string * Construct);
  history : list Event
}.

Inductive Error :=
| TypeError (what : string)
| ConstructError (message : string).

Inductive Outcome (A : Type) :=
| Done (a : A) (s : Stack)
| Thrown (e : Error).
Arguments Done {A} a s.
Arguments Thrown {A} e.

Definition M (A : Type) : Type := Stack -> Outcome A.

#[global] Instance M_ret : MRet M := fun A a s => Done a s.
#[global] Instance M_bind : MBind M := fun A B f m s =>
  match m s with
  | Done a s' => f a s'
  | Thrown e => Thrown e
  end.

Definition throw {A} (e : Error) : M A := fun _ => Thrown e.
Definition get : M Stack := fun s => Done s s.
Definition put (s : Stack) : M unit := fun _ => Done tt s.

(** [for (const x of xs) body(x)] *)
Fixpoint forEach {A} (xs : list A) (body : A -> M unit) : M unit :=
  match xs with
  | [] => mret tt
  | x :: xs' => body x ;; forEach xs' body
  end.

(** ** The construct tree *)

Fixpoint lookupChild (p : string) (cs : list (string * Construct)) : option Construct :=
  match cs with
  | [] => None
  | (q, c) :: cs' => if decide (p = q) then Some c else lookupChild p cs'
  end.

Fixpoint replaceChild (p : string) (c : Construct) (cs : list (string * Construct))
  : list (string * Construct) :=
  match cs with
  | [] => []
  | (q, d) :: cs' =>
      if decide (p = q) then (q, c) :: cs' else (q, d) :: replaceChild p c cs'
  end.

Definition withChildren (cs : list (string * Construct)) (s : Stack) : Stack :=
  mkStack (stackId s) (stackProps s) (vpc s) (internalAlb s) (internalAlbListener s)
          cs (history s).

Definition withHistory (h : list Event) (s : Stack) : Stack :=
  mkStack (stackId s) (stackProps s) (vpc s) (internalAlb s) (internalAlbListener s)
          (children s) h.

Definition record (e : Event) : M unit :=
  s ← get; put (withHistory (history s ++ [e]) s).

(** [new C(scope, id, ...)]: the construct enters the tree under its path;
    a path can be taken only once. *)
Definition addChild (p : string) (c : Construct) : M string :=
  s ← get;
  if decide (p ∈ (children s).*1)
  then throw (ConstructError ("There is already a Construct with name '" +:+ p +:+ "'"))
  else put (withChildren (children s ++ [(p, c)]) s) ;; record (Created p) ;; mret p.

Definition setChild (p : string) (c : Construct) : M unit :=
  s ← get; put (withChildren (replaceChild p c (children s)) s).

Definition getVpc (h : string) : M Vpc :=
  s ← get;
  match lookupChild h (children s) with
  | Some (CVpc v) => mret v
  | _ => throw (TypeError (h +:+ " is not a Vpc"))
  end.

Definition getSecurityGroup (h : string) : M SecurityGroup :=
  s ← get;
  match lookupChild h (children s) with
  | Some (CSecurityGroup g) => mret g
  | _ => throw (TypeError (h +:+ " is not a SecurityGroup"))
  end.

Definition getLoadBalancer (h : string) : M ApplicationLoadBalancer :=
  s ← get;
  match lookupChild h (children s) with
  | Some (CApplicationLoadBalancer b) => mret b
  | _ => throw (TypeError (h +:+ " is not an ApplicationLoadBalancer"))
  end.

Definition getListener (h : string) : M ApplicationListener :=
  s ← get;
  match lookupChild h (children s) with
  | Some (CApplicationListener l) => mret l
  | _ => throw (TypeError (h +:+ " is not an ApplicationListener"))
  end.

Definition getTargetGroup (h : string) : M ApplicationTargetGroup :=
  s ← get;
  match lookupChild h (children s) with
  | Some (CApplicationTargetGroup g) => mret g
  | _ => throw (TypeError (h +:+ " is not an ApplicationTargetGroup"))
  end.

Definition getCluster (h : string) : M Cluster :=
  s ← get;
  match lookupChild h (children s) with
  | Some (CCluster c) => mret c
  | _ => throw (TypeError (h +:+ " is not a Cluster"))
  end.

Definition getTaskDefinition (h : string) : M FargateTaskDefinition :=
  s ← get;
  match lookupChild h (children s) with
  | Some (CFargateTaskDefinition d) => mret d
  | _ => throw (TypeError (h +:+ " is not a FargateTaskDefinition"))
  end.

Definition getContainer (h : string) : M ContainerDefinition :=
  s ← get;
  match lookupChild h (children s) with
  | Some (CContainerDefinition c) => mret c
  | _ => throw (TypeError (h +:+ " is not a ContainerDefinition"))
  end.

Definition getRepository (h : string) : M Repository :=
  s ← get;
  match lookupChild h (children s) with
  | Some (CRepository r) => mret r
  | _ => throw (TypeError (h +:+ " is not a Repository"))
  end.

Definition getService (h : string) : M FargateService :=
  s ← get;
  match lookupChild h (children s) with
  | Some (CFargateService f) => mret f
  | _ => throw (TypeError (h +:+ " is not a FargateService"))
  end.

Definition getVpcLink (h : string) : M VpcLink :=
  s ← get;
  match lookupChild h (children s) with
  | Some (CVpcLink l) => mret l
  | _ => throw (TypeError (h +:+ " is not a VpcLink"))
  end.

Definition getHttpApi (h : string) : M HttpApi :=
  s ← get;
  match lookupChild h (children s) with
  | Some (CHttpApi a) => mret a
  | _ => throw (TypeError (h +:+ " is not an HttpApi"))
  end.

(** Going through the members of a list that is written out. *)
Ltac each_member H :=
  repeat (apply elem_of_cons in H as [->|H]); [..|by apply elem_of_nil in H].

(** ** The construct library, as the stack uses it *)

Section Topology.

(** The address allocator of the Vpc construct: [allocateCidr n i] is
    the CIDR block of the [i]-th of the [n] subnets of the network. *)
Variable allocateCidr : nat -> nat -> string.

(** *** aws-ec2 *)

(** Without NAT gateways the network has a public and an isolated subnet
    group; otherwise a public one and a private one with egress. *)
Definition defaultSubnetConfiguration (natGateways : nat) : list SubnetType.t :=
  if decide (natGateways = 0)
  then [SubnetType.PUBLIC; SubnetType.PRIVATE_ISOLATED]
  else [SubnetType.PUBLIC; SubnetType.PRIVATE_WITH_EGRESS].

Definition routeOf (t : SubnetType.t) : option Gateway :=
  match t with
  | SubnetType.PUBLIC => Some InternetGateway
  | SubnetType.PRIVATE_WITH_EGRESS => Some NatGateway
  | SubnetType.PRIVATE_ISOLATED => None
  end.

(** One subnet per group and zone, group by group. *)
Definition createSubnets (groups : list SubnetType.t) (azs : list string) : list Subnet :=
  let n := (length groups * length azs)%nat in
  concat (imap (fun g t =>
            imap (fun i az =>
              mkSubnet t az (allocateCidr n (g * length azs + i)%nat) (routeOf t)) azs)
          groups).

(** The address range of a network that is given none. *)
Definition Vpc_DEFAULT_CIDR_RANGE : string := "10.0.0.0/16".

(** [new Vpc(this, id, {maxAzs, natGateways})].  [maxAzs] is an upper
    bound: the network spans the first [maxAzs] zones of the stack's
    environment, or all of them when there are fewer.  No address range is
    given, so [vpc.vpcCidrBlock] stands for the default range. *)
Definition new_Vpc (id : string) (maxAzs natGateways : nat) : M string :=
  s ← get;
  let azs := take maxAzs (zones (env (stackProps s))) in
  addChild id (CVpc (mkVpc maxAzs (Nat.min natGateways (length azs)) Vpc_DEFAULT_CIDR_RANGE azs
                       (createSubnets (defaultSubnetConfiguration natGateways) azs))).

(** [new Vpc(this, id, {maxAzs})]: without [natGateways] the network has
    one NAT gateway for each of its zones, of which there are at most
    [maxAzs]. *)
Definition new_Vpc_withNat (id : string) (maxAzs : nat) : M string :=
  new_Vpc id maxAzs maxAzs.

Definition subnetsOfType (t : SubnetType.t) (v : Vpc) : list Subnet :=
  filter (fun sn => subnetType sn = t) (subnets v).

(** The subnet type an empty selection stands for: private subnets when
    there are any, else isolated ones when there are any, else public. *)
Definition defaultSubnetType (v : Vpc) : SubnetType.t :=
  match subnetsOfType SubnetType.PRIVATE_WITH_EGRESS v with
  | _ :: _ => SubnetType.PRIVATE_WITH_EGRESS
  | [] =>
      match subnetsOfType SubnetType.PRIVATE_ISOLATED v with
      | _ :: _ => SubnetType.PRIVATE_ISOLATED
      | [] => SubnetType.PUBLIC
      end
  end.

(** [vpc.selectSubnets(selection)]; selecting a type of which the
    network has no subnet is an error. *)
Definition selectSubnets (vpc : string) (selection : SubnetSelection) : M (list Subnet) :=
  v ← getVpc vpc;
  let t := match selSubnetType selection with
           | Some t => t
           | None => defaultSubnetType v
           end in
  match subnetsOfType t v with
  | [] => throw (ConstructError "There are no subnet groups of the selected type in this VPC")
  | sn :: sns => mret (sn :: sns)
  end.

Definition new_SecurityGroup (id : string) (vpc : string) : M string :=
  _ ← getVpc vpc;
  addChild id (CSecurityGroup (mkSecurityGroup vpc [])).

(** A rule the group already has is not added again. *)
Definition SecurityGroup_addIngressRule (r : IngressRule) (g : SecurityGroup) : SecurityGroup :=
  if decide (r ∈ ingressRules g) then g
  else mkSecurityGroup (sgVpc g) (ingressRules g ++ [r]).

Definition addIngressRule (sg : string) (peer : Peer.t) (connection : Port.t) : M unit :=
  g ← getSecurityGroup sg;
  setChild sg (CSecurityGroup (SecurityGroup_addIngressRule (mkIngressRule peer connection) g)).

(** [new InterfaceVpcEndpointService(name, port)] *)
Definition new_InterfaceVpcEndpointService (name : string) (port : nat) : VpcEndpointService :=
  mkVpcEndpointService name port.

(** The services of the platform are named after the region of the stack. *)
Definition awsServiceName (shortName : string) : M string :=
  s ← get; mret ("com.amazonaws." +:+ region (env (stackProps s)) +:+ "." +:+ shortName).

Definition InterfaceVpcEndpointAwsService_CLOUDWATCH_LOGS : M VpcEndpointService :=
  n ← awsServiceName "logs"; mret (mkVpcEndpointService n 443).

Definition GatewayVpcEndpointAwsService_S3 : M VpcEndpointService :=
  n ← awsServiceName "s3"; mret (mkVpcEndpointService n 443).

(** [vpc.addInterfaceEndpoint(id, {service, subnets, securityGroups,
    privateDnsEnabled})]: the endpoint is a child of the network.  [open]
    is not given and defaults to [true]: every security group of the
    endpoint is made to admit the port of the service from the address
    range of the network. *)
Definition addInterfaceEndpoint (vpc id : string) (service : VpcEndpointService)
    (subnets : SubnetSelection) (securityGroups : list string)
    (privateDnsEnabled : bool) : M string :=
  v ← getVpc vpc;
  forEach securityGroups (fun g =>
    addIngressRule g (Peer.ipv4 (vpcCidrBlock v)) (Port.tcp (servicePort service))) ;;
  sns ← selectSubnets vpc subnets;
  addChild (vpc +:+ "/" +:+ id)
    (CInterfaceVpcEndpoint (mkInterfaceVpcEndpoint vpc service sns securityGroups privateDnsEnabled)).

Fixpoint selectAll (vpc : string) (selections : list SubnetSelection) : M (list (list Subnet)) :=
  match selections with
  | [] => mret []
  | sel :: rest =>
      sns ← selectSubnets vpc sel;
      more ← selectAll vpc rest;
      mret (sns :: more)
  end.

(** [vpc.addGatewayEndpoint(id, {service, subnets})] *)
Definition addGatewayEndpoint (vpc id : string) (service : VpcEndpointService)
    (subnets : list SubnetSelection) : M string :=
  snss ← selectAll vpc subnets;
  addChild (vpc +:+ "/" +:+ id) (CGatewayVpcEndpoint (mkGatewayVpcEndpoint vpc service snss)).

(** *** aws-elasticloadbalancingv2 *)

Definition new_ApplicationLoadBalancer (id : string) (vpc : string) (internetFacing : bool)
    (vpcSubnets : SubnetSelection) (securityGroup : string) : M string :=
  sns ← selectSubnets vpc vpcSubnets;
  _ ← getSecurityGroup securityGroup;
  addChild id (CApplicationLoadBalancer
                 (mkApplicationLoadBalancer vpc internetFacing sns securityGroup)).

(** [alb.addListener(id, {port})]: the listener is a child of the load
    balancer and starts without a default action.  [open] is not given and
    defaults to [true]: the security group of the load balancer is made to
    admit the port of the listener from any address. *)
Definition addListener (alb id : string) (port : nat) : M string :=
  b ← getLoadBalancer alb;
  addIngressRule (albSecurityGroup b) Peer.anyIpv4 (Port.tcp port) ;;
  addChild (alb +:+ "/" +:+ id) (CApplicationListener (mkApplicationListener alb port None)).

(** [listener.registerConnectable(connectable, portRange)]: the security
    groups of the target admit the port range from the security group of
    the listener's load balancer. *)
Definition registerConnectable (listener : string) (securityGroups : list string)
    (portRange : Port.t) : M unit :=
  l ← getListener listener;
  b ← getLoadBalancer (listenerLoadBalancer l);
  forEach securityGroups (fun g =>
    addIngressRule g (Peer.securityGroupId (albSecurityGroup b)) portRange).

(** [targetGroup.registerListener(listener)]: the targets of the group,
    which are services, open their port to the listener's load balancer. *)
Definition registerListener (targetGroup listener : string) : M unit :=
  g ← getTargetGroup targetGroup;
  forEach (targets g) (fun t =>
    f ← getService (targetService t);
    registerConnectable listener (serviceSecurityGroups f) (Port.tcp (targetContainerPort t))).

(** [action.bind(scope, listener)]: a forwarding action registers its
    target groups with the listener; a fixed response has nothing to bind. *)
Definition ListenerAction_bind (a : ListenerAction.t) (listener : string) : M unit :=
  match a with
  | ListenerAction.fixedResponse _ _ => mret tt
  | ListenerAction.forward targetGroups =>
      forEach targetGroups (fun g => registerListener g listener)
  end.

Definition setDefaultAction (listener : string) (a : ListenerAction.t) : M unit :=
  l ← getListener listener;
  ListenerAction_bind a listener ;;
  setChild listener
    (CApplicationListener (mkApplicationListener (listenerLoadBalancer l) (listenerPort l) (Some a))) ;;
  record (DefaultActionSet listener a).

(** Conditions and a priority come together or not at all. *)
Definition checkAddRuleProps (priority : option Z) (conditions : list ListenerCondition.t) : M unit :=
  match priority, conditions with
  | Some _, _ :: _ => mret tt
  | None, [] => mret tt
  | _, _ => throw (ConstructError
               "Setting 'conditions', 'pathPattern' or 'hostHeader' also requires 'priority', and vice versa")
  end.

(** [new ApplicationListenerRule(listener, id + 'Rule', ...)]: a child of
    the listener.  There has to be a condition and the priority has to be
    positive; the priority is not compared with the priorities of the rules
    that the listener has.  The rule binds its action. *)
Definition new_ApplicationListenerRule (listener id : string) (priority : Z)
    (conditions : list ListenerCondition.t) (a : ListenerAction.t) : M string :=
  _ ← getListener listener;
  match conditions with
  | [] => throw (ConstructError
            "At least one of 'conditions', 'hostHeader', 'pathPattern' or 'pathPatterns' is required when defining a load balancing rule.")
  | _ :: _ =>
      if (priority <=? 0)%Z
      then throw (ConstructError "Priority must have value greater than or equal to 1")
      else
        rule ← addChild (listener +:+ "/" +:+ id)
                 (CApplicationListenerRule
                    (mkApplicationListenerRule listener priority conditions a));
        ListenerAction_bind a listener ;;
        mret rule
  end.

(** [listener.addAction(id, {action, priority, conditions})]: with a
    priority the action becomes a rule, without one it becomes the
    default action of the listener. *)
Definition addAction (listener id : string) (a : ListenerAction.t)
    (priority : option Z) (conditions : list ListenerCondition.t) : M unit :=
  checkAddRuleProps priority conditions ;;
  match priority with
  | Some p => _ ← new_ApplicationListenerRule listener (id +:+ "Rule") p conditions a; mret tt
  | None => setDefaultAction listener a
  end.

Definition addTargetGroups (listener id : string) (targetGroups : list string)
    (priority : option Z) (conditions : list ListenerCondition.t) : M unit :=
  checkAddRuleProps priority conditions ;;
  match priority with
  | Some p =>
      _ ← new_ApplicationListenerRule listener (id +:+ "Rule") p conditions
            (ListenerAction.forward targetGroups);
      mret tt
  | None => setDefaultAction listener (ListenerAction.forward targetGroups)
  end.

(** The properties given to [ListenerConfig.applicationListener]. *)
Record AddApplicationTargetsProps := mkAddApplicationTargetsProps {
  propProtocol : option ApplicationProtocol.t;
  propPort : option nat;
  propPriority : option Z;
  propHealthCheck : option HealthCheck;
  propConditions : list ListenerCondition.t
}.

(** [listener.addTargets(id, props)]: a new target group, a child of the
    listener, and the rule (or default action) that forwards to it. *)
Definition addTargets (listener id : string) (props : AddApplicationTargetsProps)
    (port : nat) (targets : list LoadBalancerTarget) : M string :=
  _ ← getListener listener;
  group ← addChild (listener +:+ "/" +:+ id +:+ "Group")
            (CApplicationTargetGroup
               (mkApplicationTargetGroup (propProtocol props) port (propHealthCheck props) targets));
  addTargetGroups listener id [group] (propPriority props) (propConditions props) ;;
  mret group.

(** *** aws-ecs and aws-ecr *)

(** [new Cluster(this, id, {clusterName, vpc})].  Given no network
    ([vpc] is [undefined]), the cluster builds one of its own below itself,
    over at most two zones. *)
Definition new_Cluster (id : string) (clusterName : string) (vpc : option string) : M string :=
  match vpc with
  | Some v =>
      _ ← getVpc v;
      addChild id (CCluster (mkCluster clusterName v))
  | None =>
      c ← addChild id (CCluster (mkCluster clusterName (id +:+ "/" +:+ "Vpc")));
      _ ← new_Vpc_withNat (id +:+ "/" +:+ "Vpc") 2;
      mret c
  end.

Definition new_FargateTaskDefinition (id : string) (memoryLimitMiB cpu : nat) : M string :=
  addChild id (CFargateTaskDefinition (mkFargateTaskDefinition memoryLimitMiB cpu)).

(** [Repository.fromRepositoryName(this, id, repositoryName)] *)
Definition Repository_fromRepositoryName (id : string) (repositoryName : string) : M string :=
  addChild id (CRepository (mkRepository repositoryName)).

Definition ContainerImage_fromEcrRepository (repository : string) : M ContainerImage.t :=
  _ ← getRepository repository;
  mret (ContainerImage.fromEcrRepository repository).

(** [taskDefinition.addContainer(id, {image, logging, portMappings})]: the
    container is a child of the task definition, named after its id. *)
Definition addContainer (taskDefinition id : string) (image : ContainerImage.t)
    (logging : LogDriver.t) (portMappings : list PortMapping) : M string :=
  _ ← getTaskDefinition taskDefinition;
  addChild (taskDefinition +:+ "/" +:+ id)
    (CContainerDefinition (mkContainerDefinition taskDefinition id image logging portMappings)).

(** [new FargateService(this, id, {cluster, taskDefinition, desiredCount,
    assignPublicIp})].  No subnets are given: the service goes to the
    public subnets when it assigns public addresses and to the default
    selection of the cluster's network otherwise.  No security groups are
    given either: the service gets one of its own, a child of the service
    in the cluster's network. *)
Definition new_FargateService (id : string) (cluster taskDefinition : string)
    (desiredCount : nat) (assignPublicIp : bool) : M string :=
  c ← getCluster cluster;
  _ ← getTaskDefinition taskDefinition;
  sns ← selectSubnets (clusterVpc c)
          (if assignPublicIp then mkSubnetSelection (Some SubnetType.PUBLIC)
           else mkSubnetSelection None);
  service ← addChild id
              (CFargateService
                 (mkFargateService cluster taskDefinition desiredCount assignPublicIp sns
                    [id +:+ "/" +:+ "SecurityGroup"]));
  _ ← new_SecurityGroup (id +:+ "/" +:+ "SecurityGroup") (clusterVpc c);
  mret service.

(** The containers of a task definition, in the order they were added. *)
Definition containersOf (taskDefinition : string) (cs : list (string * Construct))
  : list ContainerDefinition :=
  omap (fun pc => match pc.2 with
                  | CContainerDefinition c =>
                      if decide (containerTaskDefinition c = taskDefinition) then Some c else None
                  | _ => None
                  end) cs.

(** [service.loadBalancerTarget({containerName})]: the named container of
    the service's task definition, at its first mapped port. *)
Definition loadBalancerTarget (service name : string) : M LoadBalancerTarget :=
  f ← getService service;
  s ← get;
  match filter (fun c => containerName c = name)
               (containersOf (taskDefinition f) (children s)) with
  | [] => throw (ConstructError ("No container named '" +:+ name +:+ "'"))
  | c :: _ =>
      match portMappings c with
      | [] => throw (ConstructError ("Container " +:+ name +:+ " hasn't defined any ports"))
      | pm :: _ => mret (mkLoadBalancerTarget service name (containerPort pm))
      end
  end.

(** [ListenerConfig.applicationListener(listener, props)] *)
Record ListenerConfig := applicationListener {
  configListener : string;
  configProps : AddApplicationTargetsProps
}.

(** One argument of [registerLoadBalancerTargets]. *)
Record EcsTarget := mkEcsTarget {
  ecsContainerName : string;
  newTargetGroupId : string;
  listener : ListenerConfig
}.

(** The port of the new target group: the one given, else 443 for HTTPS
    and 80 otherwise. *)
Definition targetGroupPort (props : AddApplicationTargetsProps) : nat :=
  match propPort props with
  | Some p => p
  | None =>
      match propProtocol props with
      | Some ApplicationProtocol.HTTPS => 443
      | _ => 80
      end
  end.

Definition ListenerConfig_addTargets (config : ListenerConfig) (id : string)
    (containerName : string) (service : string) : M unit :=
  target ← loadBalancerTarget service containerName;
  _ ← addTargets (configListener config) id (configProps config)
        (targetGroupPort (configProps config)) [target];
  mret tt.

(** [service.registerLoadBalancerTargets(...targets)] *)
Definition registerLoadBalancerTargets (service : string) (targets : list EcsTarget) : M unit :=
  forEach targets (fun target =>
    ListenerConfig_addTargets (listener target) (newTargetGroupId target)
      (ecsContainerName target) service).

(** *** aws-apigatewayv2 *)

Definition new_VpcLink (id : string) (vpc : string) (vpcLinkName : string)
    (subnets : list Subnet) : M string :=
  _ ← getVpc vpc;
  addChild id (CVpcLink (mkVpcLink vpc vpcLinkName subnets)).

Definition new_HttpApi (id : string) (apiName : string) : M string :=
  addChild id (CHttpApi (mkHttpApi apiName)).

Definition new_HttpAlbIntegration (id : string) (listener : string)
    (method : HttpMethod.t) (vpcLink : string) : HttpAlbIntegration :=
  mkHttpAlbIntegration id listener method vpcLink.

(** [new HttpRoute(this, id, {httpApi, integration, routeKey})]: the route
    binds its integration, which reads the link and the listener. *)
Definition new_HttpRoute (id : string) (httpApi : string) (integration : HttpAlbIntegration)
    (routeKey : HttpRouteKey.t) : M string :=
  _ ← getHttpApi httpApi;
  _ ← getVpcLink (integrationVpcLink integration);
  _ ← getListener (integrationListener integration);
  addChild id (CHttpRoute (mkHttpRoute httpApi integration routeKey)).

(** ** The class [HttpApiPrivateIntegrationEcsStack] *)

(** Reading a field; an unset field is [undefined] and cannot be used. *)
Definition this_vpc : M string :=
  s ← get;
  match vpc s with
  | Some h => mret h
  | None => throw (TypeError "this.vpc is undefined")
  end.

(** Reading [this.vpc] to hand it on as a property: an unset field is
    handed on as [undefined]. *)
Definition this_vpc_or_undefined : M (option string) :=
  s ← get; mret (vpc s).

Definition this_internalAlb : M string :=
  s ← get;
  match internalAlb s with
  | Some h => mret h
  | None => throw (TypeError "this.internalAlb is undefined")
  end.

Definition this_internalAlbListener : M string :=
  s ← get;
  match internalAlbListener s with
  | Some h => mret h
  | None => throw (TypeError "this.internalAlbListener is undefined")
  end.

Definition set_vpc (h : string) : M unit :=
  s ← get;
  put (mkStack (stackId s) (stackProps s) (Some h) (internalAlb s) (internalAlbListener s)
               (children s) (history s)).

Definition set_internalAlb (h : string) : M unit :=
  s ← get;
  put (mkStack (stackId s) (stackProps s) (vpc s) (Some h) (internalAlbListener s)
               (children s) (history s)).

Definition set_internalAlbListener (h : string) : M unit :=
  s ← get;
  put (mkStack (stackId s) (stackProps s) (vpc s) (internalAlb s) (Some h)
               (children s) (history s)).

Definition setupVpc : M unit :=
  v ← new_Vpc "VPC" 2 0;
  set_vpc v.

Definition setupAlb : M unit :=
  vpc ← this_vpc;
  internalAlbSg ← new_SecurityGroup "InternalAlbSg" vpc;
  addIngressRule internalAlbSg Peer.anyIpv4 (Port.tcp 80) ;;
  vpc ← this_vpc;
  alb ← new_ApplicationLoadBalancer "InternalAlb" vpc false
          (mkSubnetSelection (Some SubnetType.PRIVATE_ISOLATED)) internalAlbSg;
  set_internalAlb alb ;;
  internalAlb ← this_internalAlb;
  l ← addListener internalAlb "InternalHttpListener" 80;
  set_internalAlbListener l ;;
  internalAlbListener ← this_internalAlbListener;
  addAction internalAlbListener "DefaultAction"
    (ListenerAction.fixedResponse 200 "No routes defined") None [].

Definition setupEcsService : M unit :=
  vpc ← this_vpc_or_undefined;
  ecsCluster ← new_Cluster "ECSCluster" "SampleApi" vpc;
  taskDefinition ← new_FargateTaskDefinition "EcsTaskDefinition" 512 256;
  repository ← Repository_fromRepositoryName "SampleApi" "sample-api";
  image ← ContainerImage_fromEcrRepository repository;
  containerDefinition ← addContainer taskDefinition "SampleApi" image
      (LogDriver.awsLogs "SampleApi-Logs")
      [mkPortMapping 80 Protocol.TCP];
  ecsService ← new_FargateService "ECSService" ecsCluster taskDefinition 2 false;
  container ← getContainer containerDefinition;
  internalAlbListener ← this_internalAlbListener;
  registerLoadBalancerTargets ecsService
    [ mkEcsTarget (containerName container) "SampleApiTargetGroup"
        (applicationListener internalAlbListener
           (mkAddApplicationTargetsProps (Some ApplicationProtocol.HTTP) None (Some 1%Z)
              (Some (mkHealthCheck "/"))
              [ListenerCondition.pathPatterns ["/"]]));
      mkEcsTarget (containerName container) "SampleApiCustomerTargetGroup"
        (applicationListener internalAlbListener
           (mkAddApplicationTargetsProps (Some ApplicationProtocol.HTTP) None (Some 2%Z)
              (Some (mkHealthCheck "/"))
              [ListenerCondition.pathPatterns ["/customers"]])) ].

Definition setupVpcEndpointsForEcr : M unit :=
  vpc ← this_vpc;
  selectedSubnets ← selectSubnets vpc (mkSubnetSelection (Some SubnetType.PRIVATE_ISOLATED));
  vpc ← this_vpc;
  interfaceEndpointSecurityGroup ← new_SecurityGroup "InterfaceEndpointSecurityGroup" vpc;
  forEach selectedSubnets (fun privateSubnet =>
    addIngressRule interfaceEndpointSecurityGroup
      (Peer.ipv4 (ipv4CidrBlock privateSubnet)) (Port.tcp 443)) ;;
  vpc ← this_vpc;
  _ ← addInterfaceEndpoint vpc "EcrInterfaceEndpointDkr"
        (new_InterfaceVpcEndpointService "com.amazonaws.us-east-1.ecr.dkr" 443)
        (mkSubnetSelection (Some SubnetType.PRIVATE_ISOLATED))
        [interfaceEndpointSecurityGroup] true;
  vpc ← this_vpc;
  _ ← addInterfaceEndpoint vpc "EcrInterfaceEndpointApi"
        (new_InterfaceVpcEndpointService "com.amazonaws.us-east-1.ecr.api" 443)
        (mkSubnetSelection (Some SubnetType.PRIVATE_ISOLATED))
        [interfaceEndpointSecurityGroup] true;
  vpc ← this_vpc;
  logs ← InterfaceVpcEndpointAwsService_CLOUDWATCH_LOGS;
  _ ← addInterfaceEndpoint vpc "CloudWatchInterfaceEndpoint" logs
        (mkSubnetSelection (Some SubnetType.PRIVATE_ISOLATED))
        [interfaceEndpointSecurityGroup] true;
  vpc ← this_vpc;
  s3 ← GatewayVpcEndpointAwsService_S3;
  _ ← addGatewayEndpoint vpc "S3GatewayEndpoint" s3
        [mkSubnetSelection (Some SubnetType.PRIVATE_ISOLATED)];
  mret tt.

Definition setupApiGatewayVpcLink : M unit :=
  vpc ← this_vpc;
  selectedSubnets ← selectSubnets vpc (mkSubnetSelection (Some SubnetType.PRIVATE_ISOLATED));
  vpc ← this_vpc;
  httpVpcLink ← new_VpcLink "HttpVpcLink" vpc "HttpVpcLink-ECS" selectedSubnets;
  httpApi ← new_HttpApi "HttpApi" "sampleApi-ECS";
  internalAlbListener ← this_internalAlbListener;
  let httpApiIntegration :=
    new_HttpAlbIntegration "HttpApiIntegration" internalAlbListener HttpMethod.ANY httpVpcLink in
  _ ← new_HttpRoute "HttpRoute" httpApi httpApiIntegration
        (HttpRouteKey.with_ "/{proxy+}" HttpMethod.ANY);
  mret tt.

(** [super(scope, id, props)]: a stack with no children and unset fields. *)
Definition super (id : string) (props : StackProps) : Stack :=
  mkStack id props None None None [] [].

Definition constructor (id : string) (props : StackProps) : Outcome unit :=
  (setupVpc ;;
   setupAlb ;;
   setupVpcEndpointsForEcr ;;
   setupEcsService ;;
   setupApiGatewayVpcLink) (super id props).

(** ** Reading the constructed topology *)

Definition child (p : string) (st : Stack) : option Construct :=
  lookupChild p (children st).

(** The rules of a listener, in the order they were added. *)
Definition listenerRules (l : string) (st : Stack) : list ApplicationListenerRule :=
  omap (fun pc => match pc.2 with
                  | CApplicationListenerRule r =>
                      if decide (ruleListener r = l) then Some r else None
                  | _ => None
                  end) (children st).

Definition listenerDefaultAction (l : string) (st : Stack) : option ListenerAction.t :=
  match child l st with
  | Some (CApplicationListener a) => defaultAction a
  | _ => None
  end.

Definition routes (st : Stack) : list HttpRoute :=
  omap (fun pc => match pc.2 with CHttpRoute r => Some r | _ => None end) (children st).

Definition interfaceEndpoints (st : Stack) : list InterfaceVpcEndpoint :=
  omap (fun pc => match pc.2 with CInterfaceVpcEndpoint e => Some e | _ => None end)
       (children st).

(** The two target groups that [setupEcsService] registers, by the path
    under which [addTargets] creates them. *)
Definition targetGroupA : string :=
  "InternalAlb/InternalHttpListener/SampleApiTargetGroupGroup".
Definition targetGroupB : string :=
  "InternalAlb/InternalHttpListener/SampleApiCustomerTargetGroupGroup".


(** The loop of [setupVpcEndpointsForEcr], as it acts on the group. *)
Definition allowHttpsFrom (sns : list Subnet) (g : SecurityGroup) : SecurityGroup :=
  foldl (fun g sn =>
           SecurityGroup_addIngressRule
             (mkIngressRule (Peer.ipv4 (ipv4CidrBlock sn)) (Port.tcp 443)) g)
        g sns.

(** The rule that an interface endpoint on port 443 adds to its groups:
    the whole address range of the network. *)
Definition networkRule (net : Vpc) : IngressRule :=
  mkIngressRule (Peer.ipv4 (vpcCidrBlock net)) (Port.tcp 443).

(** The group of the endpoints as [setupVpcEndpointsForEcr] leaves it: the
    rules of its loop, and after them the rule of the endpoints. *)
Definition endpointGroup (v : string) (net : Vpc) : SecurityGroup :=
  SecurityGroup_addIngressRule (networkRule net)
    (allowHttpsFrom (subnetsOfType SubnetType.PRIVATE_ISOLATED net) (mkSecurityGroup v [])).

(** What [setupApiGatewayVpcLink] creates. *)
Definition bridgeEvents : list Event :=
  [Created "HttpVpcLink"; Created "HttpApi"; Created "HttpRoute"].

(** The listener of [setupAlb] and the action it falls back to. *)
Definition theListener : string := "InternalAlb/InternalHttpListener".
Definition fallback : ListenerAction.t :=
  ListenerAction.fixedResponse 200 "No routes defined".

(** Before position [i] of the history the listener was created and,
    after that, given its default fixed response. *)
Definition listenerReadyBefore (h : list Event) (i : nat) : Prop :=
  exists j k, (j < k)%nat /\ (k < i)%nat /\
    h !! j = Some (Created theListener) /\
    h !! k = Some (DefaultActionSet theListener fallback).

(** The methods of the class, to be called in any order. *)
Inductive Method :=
| SetupVpc
| SetupAlb
| SetupVpcEndpointsForEcr
| SetupEcsService
| SetupApiGatewayVpcLink.

Definition call (m : Method) : M unit :=
  match m with
  | SetupVpc => setupVpc
  | SetupAlb => setupAlb
  | SetupVpcEndpointsForEcr => setupVpcEndpointsForEcr
  | SetupEcsService => setupEcsService
  | SetupApiGatewayVpcLink => setupApiGatewayVpcLink
  end.

Definition callAll (ms : list Method) : M unit := forEach ms call.

(** What a step leaves alone and what it adds. *)
Definition sameFields (s s' : Stack) : Prop :=
  vpc s' = vpc s /\ internalAlb s' = internalAlb s /\
  internalAlbListener s' = internalAlbListener s.

Definition grew (s s' : Stack) (evs : list Event) : Prop :=
  history s' = (history s ++ evs)%list /\ sameFields s s'.

(** The order that every sequence of calls keeps: the fields hold the
    constructs of [setupVpc] and [setupAlb]; once the listener field is
    set, the listener was created and given its default action; and
    nothing of the bridge is recorded before that. *)
Definition ordered (s : Stack) : Prop :=
  (forall v, vpc s = Some v -> v = "VPC") /\
  (forall l, internalAlbListener s = Some l ->
     l = theListener /\ listenerReadyBefore (history s) (length (history s))) /\
  (forall i b, b ∈ bridgeEvents -> history s !! i = Some b ->
     listenerReadyBefore (history s) i).

(** ** The methods on an arbitrary stack *)

#[global] Instance Method_eq_dec : EqDecision Method.
Proof. solve_decision. Defined.

(** From [s] to [s'] no construct is lost, and outside the paths [Q] no
    construct is changed. *)
Definition keeps (Q : list string) (s s' : Stack) : Prop :=
  (forall p c, child p s = Some c -> is_Some (child p s')) /\
  (forall p c, p ∉ Q -> child p s = Some c -> child p s' = Some c).

(** The first construct that a method creates. *)
Definition marker (m : Method) : string :=
  match m with
  | SetupVpc => "VPC"
  | SetupAlb => "InternalAlbSg"
  | SetupVpcEndpointsForEcr => "InterfaceEndpointSecurityGroup"
  | SetupEcsService => "ECSCluster"
  | SetupApiGatewayVpcLink => "HttpVpcLink"
  end.

(** The methods that have to come before a method on a fresh stack:
    [this.vpc] is assigned by [setupVpc], [this.internalAlb] and
    [this.internalAlbListener] by [setupAlb], which needs [this.vpc]
    itself. *)
Definition requires (m : Method) : list Method :=
  match m with
  | SetupVpc => []
  | SetupAlb => [SetupVpc]
  | SetupVpcEndpointsForEcr => [SetupVpc]
  | SetupEcsService => [SetupVpc; SetupAlb]
  | SetupApiGatewayVpcLink => [SetupVpc; SetupAlb]
  end.

(** [m] may be called after the calls [done]: it was not called before, and
    what it requires was. *)
Definition allowed (done : list Method) (m : Method) : bool :=
  bool_decide (m ∉ done) && forallb (fun r => bool_decide (r ∈ done)) (requires m).

Fixpoint admissibleAfter (done ms : list Method) : bool :=
  match ms with
  | [] => true
  | m :: ms' => allowed done m && admissibleAfter (m :: done) ms'
  end.

Definition admissible (ms : list Method) : bool := admissibleAfter [] ms.

(** What a stack shows of the calls [done] that led to it. *)
Definition reached (done : list Method) (s : Stack) : Prop :=
  (forall m, m ∈ done -> is_Some (child (marker m) s)) /\
  (is_Some (vpc s) -> SetupVpc ∈ done) /\
  (is_Some (internalAlbListener s) -> SetupAlb ∈ done) /\
  (SetupAlb ∈ done -> SetupVpc ∈ done).

(** ** Request-time evaluation *)

Section Evaluation.

(** How a pattern matches a path is the load balancer's business and is
    left open. *)
Variable pathMatches : string -> string -> bool.

(** Modelled from the spec: when the "pattern set" of a path condition
    matches, which the load balancer decides and the source does not.  A
    condition holds for a path that one of its patterns matches. *)
Definition conditionMatches (c : ListenerCondition.t) (p : string) : bool :=
  match c with
  | ListenerCondition.pathPatterns values => existsb (fun v => pathMatches v p) values
  end.

(** Modelled from the spec: when a rule matches, which the load balancer
    decides and the source does not.  A rule matches a path for which all
    its conditions hold. *)
Definition ruleMatches (r : ApplicationListenerRule) (p : string) : bool :=
  forallb (fun c => conditionMatches c p) (conditions r).

(** Modelled from the spec: the evaluation of the listener's rules at
    request time, which the load balancer performs and which is no part
    of the source.  "The rule with the lowest priority number whose
    pattern set matches wins". *)
Fixpoint winningRule (p : string) (rs : list ApplicationListenerRule)
  : option ApplicationListenerRule :=
  match rs with
  | [] => None
  | r :: rs' =>
      if ruleMatches r p then
        match winningRule p rs' with
        | Some r' => if (priority r' <? priority r)%Z then Some r' else Some r
        | None => Some r
        end
      else winningRule p rs'
  end.

(** Modelled from the spec: what the listener answers to a request, which
    is decided by the load balancer and not by the source.  The winning
    rule's action; "if no rule matches, the listener returns" its default
    action. *)
Definition evaluate (l : string) (st : Stack) (p : string) : option ListenerAction.t :=
  match winningRule p (listenerRules l st) with
  | Some r => Some (action r)
  | None => listenerDefaultAction l st
  end.

End Evaluation.

(** ** Replicas *)

(** One running instance of a service's task definition. *)
Record Replica := mkReplica {
  replicaService : string;
  replicaTaskDefinition : string;
  replicaIndex : nat
}.

(** Modelled from the spec: the replicas that the orchestrator of the
    platform keeps running, which is no part of the source.  "The scaling
    controller is responsible for converging actual replica count to" the
    desired count of the service; each replica runs the service's task
    definition. *)
Definition replicas (service : string) (st : Stack) : list Replica :=
  match child service st with
  | Some (CFargateService f) =>
      (fun i => mkReplica service (taskDefinition f) i) <$> seq 0 (desiredCount f)
  | _ => []
  end.

(** Modelled from the spec: where a replica listens, which the platform
    decides at run time and the source does not.  "Container listens on
    port 80/TCP inside each replica": a replica has the port mappings of
    the containers of its task definition. *)
Definition replicaPorts (r : Replica) (st : Stack) : list PortMapping :=
  concat (portMappings <$> containersOf (replicaTaskDefinition r) (children st)).

(** Modelled from the spec: the membership of a replica in a target group,
    which the orchestrator maintains and the source does not.  "The
    workload registers its replicas as members of one or more
    TargetGroups": a replica is a member of the groups that have its
    service as a target. *)
Definition memberOf (r : Replica) (group : string) (st : Stack) : bool :=
  match child group st with
  | Some (CApplicationTargetGroup g) =>
      bool_decide (replicaService r ∈ targetService <$> targets g)
  | _ => false
  end.

(** ** The parameters of the construction *)




(** ** Sample deployments *)

(** An even split of 10.0.0.0/16 over two or four subnets. *)
Definition evenSplit (n i : nat) : string :=
  match n, i with
  | 2, 0 => "10.0.0.0/17"
  | 2, 1 => "10.0.128.0/17"
  | 4, 0 => "10.0.0.0/18"
  | 4, 1 => "10.0.64.0/18"
  | 4, 2 => "10.0.128.0/18"
  | 4, 3 => "10.0.192.0/18"
  | _, _ => "10.0.0.0/16"
  end%nat.

Definition virginia : StackProps :=
  mkStackProps None None
    (mkEnvironment "us-east-1" ["us-east-1a"; "us-east-1b"; "us-east-1c"]).

Definition ireland : StackProps :=
  mkStackProps None None
    (mkEnvironment "eu-west-1" ["eu-west-1a"; "eu-west-1b"; "eu-west-1c"]).


(** An environment that offers a single zone. *)
Definition singleZone : StackProps :=
  mkStackProps None None (mkEnvironment "us-east-1" ["us-east-1a"]).

(** A stack with [this.vpc] unset and everything else as it is. *)
Definition withoutVpc (s : Stack) : Stack :=
  mkStack (stackId s) (stackProps s) None (internalAlb s) (internalAlbListener s)
          (children s) (history s).

(** An environment that offers no zone. *)
Definition noZone : StackProps :=
  mkStackProps None None (mkEnvironment "us-east-1" []).


(** A pattern matches the path it spells out. *)
Definition exactMatch (pattern p : string) : bool := bool_decide (pattern = p).

(** ** Running the constructor *)

(** The constructor returns in every environment that offers a zone.  The
    proofs below go through the two shapes of the network, over one zone
    and over two, and run the constructor on each; the security group of
    the endpoints is kept as the fold it is, since its rules depend on the
    address blocks, which are not known. *)

Ltac split_zones props :=
  let n := fresh "stackName" in
  let d := fresh "description" in
  let r := fresh "region" in
  let zs := fresh "zs" in
  let a := fresh "zoneA" in
  let b := fresh "zoneB" in
  destruct props as [n d [r zs]]; simpl in *;
  destruct zs as [|a [|b zs]]; [congruence | | ].

Ltac run := lazy -[SecurityGroup_addIngressRule].

(** Without a zone there is no isolated subnet for the load balancer to
    go to, and the constructor throws. *)
Lemma constructor_needs_a_zone (id : string) (props : StackProps) :
  zones (env props) = [] -> exists e, constructor id props = Thrown e.
Proof.
  destruct props as [n d [r zs]]. simpl. intros ->. eexists. run. reflexivity.
Qed.

(** C1. The listener that the constructor leaves behind has exactly two
    rules and a default action: priority 1 with path pattern [/] forwards
    to target group A, priority 2 with path pattern [/customers] forwards
    to target group B, both groups check health on [/], and the default
    action is the fixed response 200 with body "No routes defined". *)
Theorem listener_rule_set (id : string) (props : StackProps) :
  zones (env props) <> [] ->
  exists st l gA gB,
    constructor id props = Done tt st /\
    internalAlbListener st = Some l /\
    listenerRules l st =
      [ mkApplicationListenerRule l 1 [ListenerCondition.pathPatterns ["/"]]
          (ListenerAction.forward [targetGroupA]);
        mkApplicationListenerRule l 2 [ListenerCondition.pathPatterns ["/customers"]]
          (ListenerAction.forward [targetGroupB]) ] /\
    child targetGroupA st = Some (CApplicationTargetGroup gA) /\
    healthCheck gA = Some (mkHealthCheck "/") /\
    child targetGroupB st = Some (CApplicationTargetGroup gB) /\
    healthCheck gB = Some (mkHealthCheck "/") /\
    listenerDefaultAction l st =
      Some (ListenerAction.fixedResponse 200 "No routes defined").
Proof.
  intros Hz. split_zones props.
  - eexists _, _, _, _. split; [run; reflexivity|]. run. repeat split; reflexivity.
  - eexists _, _, _, _. split; [run; reflexivity|]. run. repeat split; reflexivity.
Qed.


(** The listener as the constructor leaves it. *)
Lemma constructed_listener (id : string) (props : StackProps) :
  zones (env props) <> [] ->
  exists st,
    constructor id props = Done tt st /\
    internalAlbListener st = Some "InternalAlb/InternalHttpListener" /\
    listenerRules "InternalAlb/InternalHttpListener" st =
      [ mkApplicationListenerRule "InternalAlb/InternalHttpListener" 1
          [ListenerCondition.pathPatterns ["/"]] (ListenerAction.forward [targetGroupA]);
        mkApplicationListenerRule "InternalAlb/InternalHttpListener" 2
          [ListenerCondition.pathPatterns ["/customers"]]
          (ListenerAction.forward [targetGroupB]) ] /\
    listenerDefaultAction "InternalAlb/InternalHttpListener" st =
      Some (ListenerAction.fixedResponse 200 "No routes defined").
Proof.
  intros Hz. split_zones props.
  - eexists. split; [run; reflexivity|]. run. repeat split; reflexivity.
  - eexists. split; [run; reflexivity|]. run. repeat split; reflexivity.
Qed.

(** *** The rule that wins *)

Section RuleEvaluation.

Variable pathMatches : string -> string -> bool.

Lemma winningRule_sound (p : string) (rs : list ApplicationListenerRule) r :
  winningRule pathMatches p rs = Some r -> r ∈ rs /\ ruleMatches pathMatches r p = true.
Proof.
  revert r. induction rs as [|r0 rs IH]; intros r; simpl; [discriminate|].
  destruct (ruleMatches pathMatches r0 p) eqn:Hm.
  - destruct (winningRule pathMatches p rs) as [r'|] eqn:Hw.
    + destruct (priority r' <? priority r0)%Z; intros [= <-].
      * destruct (IH _ eq_refl). split; [by right|done].
      * split; [by left|done].
    + intros [= <-]. split; [by left|done].
  - intros H. destruct (IH _ H). split; [by right|done].
Qed.

Lemma winningRule_none (p : string) (rs : list ApplicationListenerRule) :
  (forall r, r ∈ rs -> ruleMatches pathMatches r p = false) -> winningRule pathMatches p rs = None.
Proof.
  intros H. destruct (winningRule pathMatches p rs) as [r|] eqn:Hw; [|done].
  apply winningRule_sound in Hw as [Hin Hm]. rewrite (H _ Hin) in Hm. discriminate.
Qed.

(** With pairwise distinct priorities, the matching rule of least
    priority number is the one that wins. *)
Lemma winningRule_lowest (p : string) (rs : list ApplicationListenerRule) r :
  NoDup (priority <$> rs) ->
  r ∈ rs ->
  ruleMatches pathMatches r p = true ->
  (forall r', r' ∈ rs -> ruleMatches pathMatches r' p = true -> (priority r <= priority r')%Z) ->
  winningRule pathMatches p rs = Some r.
Proof.
  induction rs as [|r0 rs IH]; intros Hnd Hin Hm Hlow.
  - by apply elem_of_nil in Hin.
  - rewrite fmap_cons in Hnd. apply NoDup_cons in Hnd as [Hfresh Hnd].
    apply elem_of_cons in Hin as [->|Hin]; simpl.
    + rewrite Hm. destruct (winningRule pathMatches p rs) as [r'|] eqn:Hw; [|done].
      apply winningRule_sound in Hw as [Hin' Hm'].
      assert (priority r0 <= priority r')%Z by (apply Hlow; [by right|done]).
      destruct (priority r' <? priority r0)%Z eqn:Hlt; [|done].
      apply Z.ltb_lt in Hlt. lia.
    + assert (Hw : winningRule pathMatches p rs = Some r).
      { apply IH; try done. intros r' Hr' Hm'. apply Hlow; [by right|done]. }
      rewrite Hw. destruct (ruleMatches pathMatches r0 p) eqn:Hm0; [|done].
      assert (Hle : (priority r <= priority r0)%Z) by (apply Hlow; [by left|done]).
      assert (Hne : priority r <> priority r0).
      { intros Heq. apply Hfresh. rewrite <- Heq. by apply list_elem_of_fmap_2. }
      destruct (priority r <? priority r0)%Z eqn:Hlt; [done|].
      apply Z.ltb_ge in Hlt. lia.
Qed.

(** C2. For every request path evaluated against the constructed rules:
    a path that matches [/customers], while no rule of lower priority
    number matches it, is forwarded to target group B; a path that matches
    [/], while no rule of lower priority number matches it, is forwarded
    to target group A; a path that no rule matches gets the fixed response
    200 "No routes defined".  In general the matching rule of least
    priority number wins, and the priorities of the rules are pairwise
    distinct. *)
Theorem rule_evaluation (id : string) (props : StackProps) :
  zones (env props) <> [] ->
  exists st l,
    constructor id props = Done tt st /\
    internalAlbListener st = Some l /\
    NoDup (priority <$> listenerRules l st) /\
    forall p : string,
      (pathMatches "/customers" p = true ->
       (forall r, r ∈ listenerRules l st -> (priority r < 2)%Z -> ruleMatches pathMatches r p = false) ->
       evaluate pathMatches l st p = Some (ListenerAction.forward [targetGroupB])) /\
      (pathMatches "/" p = true ->
       (forall r, r ∈ listenerRules l st -> (priority r < 1)%Z -> ruleMatches pathMatches r p = false) ->
       evaluate pathMatches l st p = Some (ListenerAction.forward [targetGroupA])) /\
      ((forall r, r ∈ listenerRules l st -> ruleMatches pathMatches r p = false) ->
       evaluate pathMatches l st p = Some (ListenerAction.fixedResponse 200 "No routes defined")) /\
      (forall r, r ∈ listenerRules l st -> ruleMatches pathMatches r p = true ->
         (forall r', r' ∈ listenerRules l st -> ruleMatches pathMatches r' p = true ->
            (priority r <= priority r')%Z) ->
         evaluate pathMatches l st p = Some (action r)).
Proof.
  intros Hz. destruct (constructed_listener id props Hz) as (st & Hrun & Hl & Hrules & Hdef).
  exists st, "InternalAlb/InternalHttpListener".
  assert (Hnd : NoDup (priority <$> listenerRules "InternalAlb/InternalHttpListener" st)).
  { rewrite Hrules. apply (bool_decide_unpack _). by vm_compute. }
  split; [done|]. split; [done|]. split; [done|].
  intros p. unfold evaluate.
  assert (Hgen : forall r, r ∈ listenerRules "InternalAlb/InternalHttpListener" st ->
            ruleMatches pathMatches r p = true ->
            (forall r', r' ∈ listenerRules "InternalAlb/InternalHttpListener" st ->
               ruleMatches pathMatches r' p = true -> (priority r <= priority r')%Z) ->
            match winningRule pathMatches p (listenerRules "InternalAlb/InternalHttpListener" st) with
            | Some r0 => Some (action r0)
            | None => listenerDefaultAction "InternalAlb/InternalHttpListener" st
            end = Some (action r)).
  { intros r Hin Hm Hlow. by rewrite (winningRule_lowest p _ r Hnd Hin Hm Hlow). }
  repeat split.
  - intros Hm Hlower.
    rewrite (Hgen (mkApplicationListenerRule "InternalAlb/InternalHttpListener" 2
               [ListenerCondition.pathPatterns ["/customers"]]
               (ListenerAction.forward [targetGroupB]))); [done| | |].
    + rewrite Hrules. set_solver.
    + unfold ruleMatches. simpl. by rewrite Hm.
    + intros r' Hin' Hm'. simpl.
      destruct (Z.lt_ge_cases (priority r') 2) as [Hlt|Hge]; [|lia].
      rewrite (Hlower r' Hin' Hlt) in Hm'. discriminate.
  - intros Hm Hlower.
    rewrite (Hgen (mkApplicationListenerRule "InternalAlb/InternalHttpListener" 1
               [ListenerCondition.pathPatterns ["/"]]
               (ListenerAction.forward [targetGroupA]))); [done| | |].
    + rewrite Hrules. set_solver.
    + unfold ruleMatches. simpl. by rewrite Hm.
    + intros r' Hin' Hm'. simpl.
      destruct (Z.lt_ge_cases (priority r') 1) as [Hlt|Hge]; [|lia].
      rewrite (Hlower r' Hin' Hlt) in Hm'. discriminate.
  - intros Hnone. by rewrite (winningRule_none p _ Hnone).
  - apply Hgen.
Qed.

End RuleEvaluation.

(** *** Placement *)

(** C3. In the constructed topology the load balancer and the service sit
    in isolated subnets of the network only, the load balancer is not
    internet-facing, the network has no NAT gateway, the service assigns
    no public address, and no isolated subnet has a default route. *)
Theorem isolated_placement (id : string) (props : StackProps) :
  zones (env props) <> [] ->
  exists st v b f,
    constructor id props = Done tt st /\
    vpc st = Some "VPC" /\
    child "VPC" st = Some (CVpc v) /\
    internalAlb st = Some "InternalAlb" /\
    child "InternalAlb" st = Some (CApplicationLoadBalancer b) /\
    child "ECSService" st = Some (CFargateService f) /\
    natGateways v = 0%nat /\
    (forall sn, sn ∈ subnets v -> defaultRoute sn <> Some NatGateway) /\
    internetFacing b = false /\
    albSubnets b <> [] /\
    (forall sn, sn ∈ albSubnets b ->
       sn ∈ subnets v /\ subnetType sn = SubnetType.PRIVATE_ISOLATED) /\
    assignPublicIp f = false /\
    serviceSubnets f <> [] /\
    (forall sn, sn ∈ serviceSubnets f ->
       sn ∈ subnets v /\ subnetType sn = SubnetType.PRIVATE_ISOLATED) /\
    (forall sn, sn ∈ subnets v ->
       subnetType sn = SubnetType.PRIVATE_ISOLATED -> defaultRoute sn = None).
Proof.
  intros Hz. split_zones props.
  - eexists _, _, _, _. split; [run; reflexivity|].
    do 5 (split; [run; reflexivity|]). simpl.
    repeat split; try done.
    + intros sn H. each_member H; done.
    + each_member H; set_solver.
    + each_member H; done.
    + each_member H; set_solver.
    + each_member H; done.
    + intros sn H. each_member H; done.
  - eexists _, _, _, _. split; [run; reflexivity|].
    do 5 (split; [run; reflexivity|]). simpl.
    repeat split; try done.
    + intros sn H. each_member H; done.
    + each_member H; set_solver.
    + each_member H; done.
    + each_member H; set_solver.
    + each_member H; done.
    + intros sn H. each_member H; done.
Qed.

(** *** Security groups *)

Lemma addIngressRule_rules (r x : IngressRule) (g : SecurityGroup) :
  x ∈ ingressRules (SecurityGroup_addIngressRule r g) <-> x ∈ ingressRules g \/ x = r.
Proof.
  unfold SecurityGroup_addIngressRule. case_decide as Hin; simpl.
  - split; [by left|]. intros [H| ->]; done.
  - rewrite elem_of_app, list_elem_of_singleton. tauto.
Qed.

Lemma addIngressRule_NoDup (r : IngressRule) (g : SecurityGroup) :
  NoDup (ingressRules g) -> NoDup (ingressRules (SecurityGroup_addIngressRule r g)).
Proof.
  intros Hnd. unfold SecurityGroup_addIngressRule. case_decide as Hin; simpl; [done|].
  apply NoDup_app. split; [done|]. split; [|apply NoDup_singleton].
  intros x Hx ->%list_elem_of_singleton. done.
Qed.

Lemma addIngressRule_present (r : IngressRule) (g : SecurityGroup) :
  r ∈ ingressRules g -> SecurityGroup_addIngressRule r g = g.
Proof. intros Hin. unfold SecurityGroup_addIngressRule. by rewrite decide_True. Qed.

Lemma allowHttpsFrom_rules (sns : list Subnet) (g : SecurityGroup) (x : IngressRule) :
  x ∈ ingressRules (allowHttpsFrom sns g) <->
  x ∈ ingressRules g \/
  exists sn, sn ∈ sns /\ x = mkIngressRule (Peer.ipv4 (ipv4CidrBlock sn)) (Port.tcp 443).
Proof.
  revert g. induction sns as [|sn sns IH]; intros g; simpl.
  - split; [by left|]. intros [H|(sn & H & _)]; [done|]. by apply elem_of_nil in H.
  - unfold allowHttpsFrom in *. simpl. rewrite IH, addIngressRule_rules. split.
    + intros [[H| ->]|(sn' & Hin & ->)]; [by left| |].
      * right. exists sn. split; [by left|done].
      * right. exists sn'. split; [by right|done].
    + intros [H|(sn' & Hin & ->)]; [by left; left|].
      apply elem_of_cons in Hin as [->|Hin]; [by left; right|].
      right. by exists sn'.
Qed.

Lemma allowHttpsFrom_NoDup (sns : list Subnet) (g : SecurityGroup) :
  NoDup (ingressRules g) -> NoDup (ingressRules (allowHttpsFrom sns g)).
Proof.
  revert g. induction sns as [|sn sns IH]; intros g Hnd; [done|].
  unfold allowHttpsFrom in *. simpl. by apply IH, addIngressRule_NoDup.
Qed.

(** Running the loop over subnets whose rules are all there changes
    nothing. *)
Lemma allowHttpsFrom_present (sns : list Subnet) (g : SecurityGroup) :
  (forall sn, sn ∈ sns ->
     mkIngressRule (Peer.ipv4 (ipv4CidrBlock sn)) (Port.tcp 443) ∈ ingressRules g) ->
  allowHttpsFrom sns g = g.
Proof.
  induction sns as [|sn sns IH]; intros H; [done|].
  unfold allowHttpsFrom in *. simpl.
  rewrite addIngressRule_present by (apply H; by left).
  apply IH. intros sn' Hin. apply H. by right.
Qed.

Lemma allowHttpsFrom_idempotent (sns : list Subnet) (g : SecurityGroup) :
  allowHttpsFrom sns (allowHttpsFrom sns g) = allowHttpsFrom sns g.
Proof.
  apply allowHttpsFrom_present. intros sn Hin.
  apply allowHttpsFrom_rules. right. by exists sn.
Qed.

(** The derived group depends on the subnets through their blocks only. *)
Lemma allowHttpsFrom_blocks (sns sns' : list Subnet) (g : SecurityGroup) :
  ipv4CidrBlock <$> sns = ipv4CidrBlock <$> sns' ->
  allowHttpsFrom sns g = allowHttpsFrom sns' g.
Proof.
  revert sns' g. induction sns as [|sn sns IH]; intros [|sn' sns'] g Heq;
    try done; try discriminate.
  rewrite !fmap_cons in Heq. injection Heq as Hb Hrest.
  unfold allowHttpsFrom in *. simpl. rewrite Hb. by apply IH.
Qed.

(** *** The bridge *)

(** C6. The constructed topology has exactly one route: key [/{proxy+}]
    with method ANY, on the HTTP API, whose integration forwards any
    method through the VPC link to the internal listener. *)
Theorem single_proxy_route (id : string) (props : StackProps) :
  zones (env props) <> [] ->
  exists st l a k api,
    constructor id props = Done tt st /\
    internalAlbListener st = Some l /\
    routes st =
      [ mkHttpRoute "HttpApi"
          (mkHttpAlbIntegration "HttpApiIntegration" l HttpMethod.ANY "HttpVpcLink")
          (HttpRouteKey.with_ "/{proxy+}" HttpMethod.ANY) ] /\
    child l st = Some (CApplicationListener a) /\
    child "HttpVpcLink" st = Some (CVpcLink k) /\
    child "HttpApi" st = Some (CHttpApi api).
Proof.
  intros Hz. split_zones props.
  - eexists _, _, _, _, _. split; [run; reflexivity|]. run. repeat split; reflexivity.
  - eexists _, _, _, _, _. split; [run; reflexivity|]. run. repeat split; reflexivity.
Qed.

(** Stepping through a method. *)
Lemma bind_Done {A B} (m : M A) (f : A -> M B) (s s' : Stack) (b : B) :
  (m ≫= f) s = Done b s' -> exists a s1, m s = Done a s1 /\ f a s1 = Done b s'.
Proof.
  unfold mbind, M_bind. destruct (m s) as [a s1|e]; [|discriminate]. eauto.
Qed.

Lemma ret_Done {A} (a b : A) (s s' : Stack) :
  (mret a : M A) s = Done b s' -> b = a /\ s' = s.
Proof. unfold mret, M_ret. intros H. by simplify_eq. Qed.

Lemma addChild_Done (p h : string) (c : Construct) (s s' : Stack) :
  addChild p c s = Done h s' ->
  h = p /\ (p ∉ (children s).*1) /\
  children s' = (children s ++ [(p, c)])%list /\
  history s' = (history s ++ [Created p])%list /\
  vpc s' = vpc s /\ internalAlb s' = internalAlb s /\
  internalAlbListener s' = internalAlbListener s.
Proof.
  unfold addChild, mbind, M_bind, get, put, record, mret, M_ret, throw. simpl.
  case_decide; [discriminate|]. intros [= <- <-]. done.
Qed.

Lemma lookupChild_snoc (p q : string) (c : Construct) (cs : list (string * Construct)) :
  lookupChild p (cs ++ [(q, c)]) =
  match lookupChild p cs with
  | Some d => Some d
  | None => if decide (p = q) then Some c else None
  end.
Proof.
  induction cs as [|[q' d] cs IH]; simpl; [done|]. by destruct (decide (p = q')).
Qed.

Ltac step H :=
  let a := fresh "a" in
  let s1 := fresh "s" in
  let H1 := fresh "Hstep" in
  apply bind_Done in H as (a & s1 & H1 & H).

Ltac next H Hn :=
  let a := fresh "a" in
  let s1 := fresh "s" in
  apply bind_Done in H as (a & s1 & Hn & H).

Ltac read_field H :=
  unfold this_vpc, this_internalAlb, this_internalAlbListener,
    getVpc, getSecurityGroup, getLoadBalancer, getListener, getTargetGroup, getCluster,
    getTaskDefinition, getContainer, getRepository, getService, getVpcLink,
    getHttpApi, mbind, M_bind, get, mret, M_ret, throw in H;
  simpl in H;
  repeat match type of H with
         | context [match ?x with _ => _ end] => destruct x eqn:?
         end;
  try discriminate; inversion H; subst; clear H.

(** Selecting subnets reads the tree and leaves the stack as it is. *)
Lemma selectSubnets_Done (v : string) (sel : SubnetSelection) (s s' : Stack) sns :
  selectSubnets v sel s = Done sns s' -> s' = s.
Proof.
  unfold selectSubnets, getVpc, mbind, M_bind, get, mret, M_ret, throw. simpl.
  repeat case_match; try discriminate; congruence.
Qed.

(** *** What each step adds to the history *)

Lemma grew_refl (s : Stack) : grew s s [].
Proof. unfold grew, sameFields. by rewrite app_nil_r. Qed.

Lemma grew_trans (s s1 s2 : Stack) (e1 e2 : list Event) :
  grew s s1 e1 -> grew s1 s2 e2 -> grew s s2 (e1 ++ e2).
Proof.
  unfold grew, sameFields. intros (H1 & V1 & A1 & L1) (H2 & V2 & A2 & L2).
  rewrite H2, H1, <- app_assoc. repeat split; congruence.
Qed.

Lemma addChild_grew (p h : string) (c : Construct) (s s' : Stack) :
  addChild p c s = Done h s' -> h = p /\ grew s s' [Created p].
Proof.
  intros H. apply addChild_Done in H as (-> & _ & _ & Hh & Hv & Ha & Hl).
  by repeat split.
Qed.

Lemma setChild_grew (p : string) (c : Construct) (s s' : Stack) (u : unit) :
  setChild p c s = Done u s' -> grew s s' [].
Proof.
  unfold setChild, mbind, M_bind, get, put. simpl. intros H. simplify_eq.
  unfold grew, sameFields. simpl. by rewrite app_nil_r.
Qed.

Lemma record_grew (e : Event) (s s' : Stack) (u : unit) :
  record e s = Done u s' -> grew s s' [e].
Proof.
  unfold record, mbind, M_bind, get, put. simpl. intros H. simplify_eq. by repeat split.
Qed.

Lemma forEach_grew {A} (xs : list A) (body : A -> M unit) :
  (forall x s u s', body x s = Done u s' -> grew s s' []) ->
  forall s u s', forEach xs body s = Done u s' -> grew s s' [].
Proof.
  intros Hbody. induction xs as [|x xs IH]; intros s u s' H; simpl in H.
  - unfold mret, M_ret in H. simplify_eq. apply grew_refl.
  - step H. apply Hbody in Hstep. apply IH in H.
    apply (grew_trans _ _ _ _ _ Hstep H).
Qed.

Lemma new_Vpc_grew (id h : string) (n g : nat) (s s' : Stack) :
  new_Vpc id n g s = Done h s' -> h = id /\ grew s s' [Created id].
Proof.
  unfold new_Vpc. intros H. step H. read_field Hstep. by apply addChild_grew in H.
Qed.

Lemma new_SecurityGroup_grew (id v h : string) (s s' : Stack) :
  new_SecurityGroup id v s = Done h s' -> h = id /\ grew s s' [Created id].
Proof.
  unfold new_SecurityGroup. intros H. step H. read_field Hstep.
  by apply addChild_grew in H.
Qed.

Lemma addIngressRule_grew (g : string) (peer : Peer.t) (c : Port.t) (s s' : Stack) (u : unit) :
  addIngressRule g peer c s = Done u s' -> grew s s' [].
Proof.
  unfold addIngressRule. intros H. step H. read_field Hstep.
  by apply setChild_grew in H.
Qed.

Lemma new_ApplicationLoadBalancer_grew (id v g h : string) (f : bool)
    (sel : SubnetSelection) (s s' : Stack) :
  new_ApplicationLoadBalancer id v f sel g s = Done h s' ->
  h = id /\ grew s s' [Created id].
Proof.
  unfold new_ApplicationLoadBalancer. intros H.
  step H. apply selectSubnets_Done in Hstep as ->.
  step H. read_field Hstep. by apply addChild_grew in H.
Qed.

Lemma addListener_grew (alb id h : string) (port : nat) (s s' : Stack) :
  addListener alb id port s = Done h s' ->
  h = alb +:+ "/" +:+ id /\ grew s s' [Created (alb +:+ "/" +:+ id)].
Proof.
  unfold addListener. intros H. next H R1. read_field R1.
  next H R2. apply addIngressRule_grew in R2.
  apply addChild_grew in H as [-> H]. split; [done|].
  apply (grew_trans _ _ _ _ _ R2 H).
Qed.

Lemma registerConnectable_grew (l : string) (gs : list string) (pr : Port.t)
    (s s' : Stack) (u : unit) :
  registerConnectable l gs pr s = Done u s' -> grew s s' [].
Proof.
  unfold registerConnectable. intros H. next H R1. read_field R1.
  next H R2. read_field R2.
  eapply forEach_grew; [|exact H].
  intros g s1 u1 s1' Hb. by apply addIngressRule_grew in Hb.
Qed.

Lemma registerListener_grew (g l : string) (s s' : Stack) (u : unit) :
  registerListener g l s = Done u s' -> grew s s' [].
Proof.
  unfold registerListener. intros H. next H R1. read_field R1.
  eapply forEach_grew; [|exact H].
  intros t s1 u1 s1' Hb. next Hb R2. read_field R2.
  by apply registerConnectable_grew in Hb.
Qed.

Lemma ListenerAction_bind_grew (a : ListenerAction.t) (l : string) (s s' : Stack) (u : unit) :
  ListenerAction_bind a l s = Done u s' -> grew s s' [].
Proof.
  destruct a as [code body|gs]; simpl; intros H.
  - apply ret_Done in H as [_ ->]. apply grew_refl.
  - eapply forEach_grew; [|exact H].
    intros g s1 u1 s1' Hb. by apply registerListener_grew in Hb.
Qed.

Lemma setDefaultAction_grew (l : string) (a : ListenerAction.t) (s s' : Stack) (u : unit) :
  setDefaultAction l a s = Done u s' -> grew s s' [DefaultActionSet l a].
Proof.
  unfold setDefaultAction. intros H. next H R1. read_field R1.
  next H R2. apply ListenerAction_bind_grew in R2.
  next H R3. apply setChild_grew in R3. apply record_grew in H.
  apply (grew_trans _ _ _ _ _ R2 (grew_trans _ _ _ _ _ R3 H)).
Qed.

(** A rule is created only with a condition and a positive priority. *)
Lemma new_ApplicationListenerRule_grew (l id h : string) (p : Z)
    (cs : list ListenerCondition.t) (a : ListenerAction.t) (s s' : Stack) :
  new_ApplicationListenerRule l id p cs a s = Done h s' ->
  h = l +:+ "/" +:+ id /\ cs <> [] /\ (1 <= p)%Z /\
  grew s s' [Created (l +:+ "/" +:+ id)].
Proof.
  unfold new_ApplicationListenerRule. intros H. next H R1. read_field R1.
  destruct cs as [|c cs]; [discriminate|].
  destruct (p <=? 0)%Z eqn:Hp; [discriminate|]. apply Z.leb_gt in Hp.
  next H R2. apply addChild_grew in R2 as [-> R2].
  next H R3. apply ListenerAction_bind_grew in R3.
  apply ret_Done in H as [-> ->].
  split_and!; [done|done|lia|]. apply (grew_trans _ _ _ _ _ R2 R3).
Qed.

Lemma addAction_default_grew (l id : string) (a : ListenerAction.t) (s s' : Stack) (u : unit) :
  addAction l id a None [] s = Done u s' -> grew s s' [DefaultActionSet l a].
Proof.
  unfold addAction. intros H. step H. simpl in Hstep.
  apply ret_Done in Hstep as [_ ->]. by apply setDefaultAction_grew in H.
Qed.

Lemma addInterfaceEndpoint_grew (v id h : string) (svc : VpcEndpointService)
    (sel : SubnetSelection) (gs : list string) (dns : bool) (s s' : Stack) :
  addInterfaceEndpoint v id svc sel gs dns s = Done h s' ->
  h = v +:+ "/" +:+ id /\ grew s s' [Created (v +:+ "/" +:+ id)].
Proof.
  unfold addInterfaceEndpoint. intros H.
  next H R1. read_field R1.
  next H R2. eapply forEach_grew in R2;
    [|intros g s2 u s2' Hg; by apply addIngressRule_grew in Hg].
  next H R3. apply selectSubnets_Done in R3 as ->.
  apply addChild_grew in H as [-> H]. split; [done|].
  apply (grew_trans _ _ _ _ _ R2 H).
Qed.

Lemma selectAll_Done (v : string) (sels : list SubnetSelection) (s s' : Stack) r :
  selectAll v sels s = Done r s' -> s' = s.
Proof.
  revert r s'. induction sels as [|sel sels IH]; intros r s' H; simpl in H.
  - by apply ret_Done in H as [_ ->].
  - step H. apply selectSubnets_Done in Hstep as ->.
    step H. apply IH in Hstep as ->. by apply ret_Done in H as [_ ->].
Qed.

Lemma addGatewayEndpoint_grew (v id h : string) (svc : VpcEndpointService)
    (sels : list SubnetSelection) (s s' : Stack) :
  addGatewayEndpoint v id svc sels s = Done h s' ->
  h = v +:+ "/" +:+ id /\ grew s s' [Created (v +:+ "/" +:+ id)].
Proof.
  unfold addGatewayEndpoint. intros H.
  step H. apply selectAll_Done in Hstep as ->. by apply addChild_grew in H.
Qed.

Lemma awsService_Done (s s' : Stack) (svc : VpcEndpointService) :
  InterfaceVpcEndpointAwsService_CLOUDWATCH_LOGS s = Done svc s' \/
  GatewayVpcEndpointAwsService_S3 s = Done svc s' -> s' = s.
Proof.
  unfold InterfaceVpcEndpointAwsService_CLOUDWATCH_LOGS, GatewayVpcEndpointAwsService_S3,
    awsServiceName, mbind, M_bind, get, mret, M_ret.
  intros [H|H]; by simplify_eq.
Qed.

Lemma new_Cluster_grew (id n h : string) (v : option string) (s s' : Stack) :
  new_Cluster id n v s = Done h s' ->
  h = id /\
  grew s s' (Created id :: match v with
                           | Some _ => []
                           | None => [Created (id +:+ "/" +:+ "Vpc")]
                           end).
Proof.
  unfold new_Cluster. intros H. destruct v as [v|].
  - next H R1. read_field R1. by apply addChild_grew in H.
  - next H R1. apply addChild_grew in R1 as [-> R1].
    next H R2. unfold new_Vpc_withNat in R2. apply new_Vpc_grew in R2 as [-> R2].
    apply ret_Done in H as [-> ->]. split; [done|].
    apply (grew_trans _ _ _ _ _ R1 R2).
Qed.

Lemma addContainer_grew (td id h : string) (img : ContainerImage.t) (lg : LogDriver.t)
    (pms : list PortMapping) (s s' : Stack) :
  addContainer td id img lg pms s = Done h s' ->
  h = td +:+ "/" +:+ id /\ grew s s' [Created (td +:+ "/" +:+ id)].
Proof.
  unfold addContainer. intros H. step H. read_field Hstep. by apply addChild_grew in H.
Qed.

Lemma ContainerImage_fromEcrRepository_Done (r : string) (s s' : Stack) img :
  ContainerImage_fromEcrRepository r s = Done img s' -> s' = s.
Proof.
  unfold ContainerImage_fromEcrRepository. intros H. step H. read_field Hstep.
  by apply ret_Done in H as [_ ->].
Qed.

Lemma new_FargateService_grew (id c td h : string) (n : nat) (ip : bool) (s s' : Stack) :
  new_FargateService id c td n ip s = Done h s' ->
  h = id /\ grew s s' [Created id; Created (id +:+ "/" +:+ "SecurityGroup")].
Proof.
  unfold new_FargateService. intros H.
  next H R1. read_field R1. next H R2. read_field R2.
  next H R3. apply selectSubnets_Done in R3 as ->.
  next H R4. apply addChild_grew in R4 as [-> R4].
  next H R5. apply new_SecurityGroup_grew in R5 as [-> R5].
  apply ret_Done in H as [-> ->]. split; [done|].
  apply (grew_trans _ _ _ _ _ R4 R5).
Qed.

Lemma loadBalancerTarget_Done (svc name : string) (s s' : Stack) t :
  loadBalancerTarget svc name s = Done t s' -> s' = s.
Proof.
  unfold loadBalancerTarget. intros H. step H. read_field Hstep.
  unfold mbind, M_bind, get, mret, M_ret, throw in H. simpl in H.
  repeat case_match; by simplify_eq.
Qed.

(** A target that comes with a priority and conditions adds its target
    group and its rule, and leaves the default action alone. *)
Lemma ListenerConfig_addTargets_grew (cfg : ListenerConfig) (id name svc : string) (p : Z)
    (c : ListenerCondition.t) (cs : list ListenerCondition.t) (s s' : Stack) (u : unit) :
  propPriority (configProps cfg) = Some p ->
  propConditions (configProps cfg) = c :: cs ->
  ListenerConfig_addTargets cfg id name svc s = Done u s' ->
  grew s s' [Created (configListener cfg +:+ "/" +:+ id +:+ "Group");
             Created (configListener cfg +:+ "/" +:+ (id +:+ "Rule"))].
Proof.
  intros Hp Hc. unfold ListenerConfig_addTargets, addTargets, addTargetGroups. intros H.
  next H R1. apply loadBalancerTarget_Done in R1 as ->.
  next H R2. next R2 R3. read_field R3.
  next R2 R4. apply addChild_grew in R4 as [-> Hgroup].
  next R2 R5. next R5 R6. rewrite Hp, Hc in *. simpl in R6.
  apply ret_Done in R6 as [_ ->].
  next R5 R7. apply new_ApplicationListenerRule_grew in R7 as (-> & _ & _ & Hrule).
  apply ret_Done in R5 as [_ ->]. apply ret_Done in R2 as [_ ->].
  apply ret_Done in H as [_ ->].
  apply (grew_trans _ _ _ _ _ Hgroup Hrule).
Qed.

Lemma new_VpcLink_grew (id v n h : string) (sns : list Subnet) (s s' : Stack) :
  new_VpcLink id v n sns s = Done h s' -> h = id /\ grew s s' [Created id].
Proof.
  unfold new_VpcLink. intros H. step H. read_field Hstep. by apply addChild_grew in H.
Qed.

Lemma new_HttpRoute_grew (id api h : string) (i : HttpAlbIntegration) (k : HttpRouteKey.t)
    (s s' : Stack) :
  new_HttpRoute id api i k s = Done h s' -> h = id /\ grew s s' [Created id].
Proof.
  unfold new_HttpRoute. intros H.
  step H. read_field Hstep. step H. read_field Hstep. step H. read_field Hstep.
  by apply addChild_grew in H.
Qed.

(** *** What each method adds to the history *)

Ltac set_field H :=
  unfold set_vpc, set_internalAlb, set_internalAlbListener, mbind, M_bind, get, put in H;
  simpl in H; inversion H; subst; clear H.

Ltac open_grew :=
  repeat match goal with
         | H : grew _ _ _ |- _ =>
             let Hh := fresh "Hh" in
             let Hv := fresh "Hv" in
             let Ha := fresh "Ha" in
             let Hl := fresh "Hl" in
             destruct H as (Hh & Hv & Ha & Hl); simpl in Hh, Hv, Ha, Hl
         end.

Ltac chase :=
  simpl;
  repeat match goal with
         | H : history _ = _ |- _ => rewrite H; clear H
         | H : vpc _ = _ |- _ => rewrite H; clear H
         | H : internalAlb _ = _ |- _ => rewrite H; clear H
         | H : internalAlbListener _ = _ |- _ => rewrite H; clear H
         end;
  rewrite <- ?app_assoc; simpl.

Lemma setupVpc_effect (s s' : Stack) (u : unit) :
  setupVpc s = Done u s' ->
  history s' = (history s ++ [Created "VPC"])%list /\
  vpc s' = Some "VPC" /\
  internalAlbListener s' = internalAlbListener s.
Proof.
  unfold setupVpc. intros H.
  step H. apply new_Vpc_grew in Hstep as [-> Hg]. set_field H.
  open_grew. repeat split; by chase.
Qed.

Lemma setupAlb_effect (s s' : Stack) (u : unit) :
  setupAlb s = Done u s' ->
  history s' =
    (history s ++ [Created "InternalAlbSg"; Created "InternalAlb"; Created theListener;
                   DefaultActionSet theListener fallback])%list /\
  vpc s' = vpc s /\
  internalAlbListener s' = Some theListener.
Proof.
  unfold setupAlb. intros H.
  step H. read_field Hstep.
  step H. apply new_SecurityGroup_grew in Hstep as [-> Hg1].
  step H. apply addIngressRule_grew in Hstep.
  step H. read_field Hstep0.
  step H. apply new_ApplicationLoadBalancer_grew in Hstep0 as [-> Hg2].
  step H. set_field Hstep0.
  step H. read_field Hstep0.
  step H. apply addListener_grew in Hstep0 as [-> Hg3].
  step H. set_field Hstep0.
  step H. read_field Hstep0.
  apply addAction_default_grew in H.
  open_grew. repeat split; by chase.
Qed.

Lemma setupVpcEndpointsForEcr_effect (s s' : Stack) (u : unit) :
  setupVpcEndpointsForEcr s = Done u s' ->
  exists v,
    vpc s = Some v /\
    grew s s' [Created "InterfaceEndpointSecurityGroup";
               Created (v +:+ "/" +:+ "EcrInterfaceEndpointDkr");
               Created (v +:+ "/" +:+ "EcrInterfaceEndpointApi");
               Created (v +:+ "/" +:+ "CloudWatchInterfaceEndpoint");
               Created (v +:+ "/" +:+ "S3GatewayEndpoint")].
Proof.
  unfold setupVpcEndpointsForEcr. intros H.
  step H. read_field Hstep.
  step H. apply selectSubnets_Done in Hstep as ->.
  step H. read_field Hstep.
  step H. apply new_SecurityGroup_grew in Hstep as [-> Hg1].
  step H. apply forEach_grew in Hstep;
    [|intros sn s3 u3 s3' Hb; by apply addIngressRule_grew in Hb].
  step H. read_field Hstep0.
  step H. apply addInterfaceEndpoint_grew in Hstep0 as [-> Hg2].
  step H. read_field Hstep0.
  step H. apply addInterfaceEndpoint_grew in Hstep0 as [-> Hg3].
  step H. read_field Hstep0.
  step H.
  match type of Hstep0 with
  | _ ?sa = Done _ ?sb => assert (sb = sa) as -> by (eapply awsService_Done; left; exact Hstep0)
  end.
  step H. apply addInterfaceEndpoint_grew in Hstep1 as [-> Hg4].
  step H. read_field Hstep1.
  step H.
  match type of Hstep1 with
  | _ ?sa = Done _ ?sb => assert (sb = sa) as -> by (eapply awsService_Done; right; exact Hstep1)
  end.
  step H. apply addGatewayEndpoint_grew in Hstep2 as [-> Hg5].
  apply ret_Done in H as [_ ->].
  open_grew.
  match goal with Hf : vpc s = Some ?v |- _ => exists v end.
  split; [done|]. unfold grew, sameFields.
  repeat split; chase; congruence.
Qed.

Lemma this_vpc_or_undefined_Done (s s' : Stack) (v : option string) :
  this_vpc_or_undefined s = Done v s' -> v = vpc s /\ s' = s.
Proof.
  unfold this_vpc_or_undefined, mbind, M_bind, get, mret, M_ret. intros H. by simplify_eq.
Qed.

Lemma setupEcsService_effect (s s' : Stack) (u : unit) :
  setupEcsService s = Done u s' ->
  exists l,
    internalAlbListener s = Some l /\
    grew s s' (Created "ECSCluster" ::
               match vpc s with
               | Some _ => []
               | None => [Created ("ECSCluster" +:+ "/" +:+ "Vpc")]
               end ++
               [Created "EcsTaskDefinition"; Created "SampleApi";
                Created ("EcsTaskDefinition" +:+ "/" +:+ "SampleApi");
                Created "ECSService";
                Created ("ECSService" +:+ "/" +:+ "SecurityGroup");
                Created (l +:+ "/" +:+ "SampleApiTargetGroup" +:+ "Group");
                Created (l +:+ "/" +:+ ("SampleApiTargetGroup" +:+ "Rule"));
                Created (l +:+ "/" +:+ "SampleApiCustomerTargetGroup" +:+ "Group");
                Created (l +:+ "/" +:+ ("SampleApiCustomerTargetGroup" +:+ "Rule"))])%list.
Proof.
  unfold setupEcsService. intros H.
  next H R1. apply this_vpc_or_undefined_Done in R1 as [-> ->].
  next H R2. apply new_Cluster_grew in R2 as [-> Hg1].
  next H R3. unfold new_FargateTaskDefinition in R3. apply addChild_grew in R3 as [-> Hg2].
  next H R4. unfold Repository_fromRepositoryName in R4.
  apply addChild_grew in R4 as [-> Hg3].
  next H R5. apply ContainerImage_fromEcrRepository_Done in R5 as ->.
  next H R6. apply addContainer_grew in R6 as [-> Hg4].
  next H R7. apply new_FargateService_grew in R7 as [-> Hg5].
  next H R8. read_field R8.
  next H R9. read_field R9.
  unfold registerLoadBalancerTargets in H. simpl in H.
  next H R10. eapply ListenerConfig_addTargets_grew in R10 as Hg6; [|reflexivity..].
  next H R11. eapply ListenerConfig_addTargets_grew in R11 as Hg7; [|reflexivity..].
  apply ret_Done in H as [_ ->]. simpl in Hg6, Hg7.
  open_grew.
  match goal with Hf : internalAlbListener _ = Some ?l |- _ => exists l end.
  split; [congruence|]. unfold grew, sameFields.
  destruct (vpc s); repeat split; chase; congruence.
Qed.

Lemma setupApiGatewayVpcLink_effect (s s' : Stack) (u : unit) :
  setupApiGatewayVpcLink s = Done u s' ->
  grew s s' bridgeEvents /\ exists l, internalAlbListener s = Some l.
Proof.
  unfold setupApiGatewayVpcLink. intros H.
  step H. read_field Hstep.
  step H. apply selectSubnets_Done in Hstep as ->.
  step H. read_field Hstep.
  step H. apply new_VpcLink_grew in Hstep as [-> Hg1].
  step H. unfold new_HttpApi in Hstep. apply addChild_grew in Hstep as [-> Hg2].
  step H. read_field Hstep.
  step H. apply new_HttpRoute_grew in Hstep as [-> Hg3].
  apply ret_Done in H as [_ ->].
  open_grew. split.
  - unfold grew, sameFields, bridgeEvents. repeat split; chase; congruence.
  - match goal with Hf : internalAlbListener _ = Some ?l |- _ => exists l end. congruence.
Qed.

(** *** The order of construction, whatever the order of the calls *)

Lemma ready_grows (h evs : list Event) (i : nat) :
  listenerReadyBefore h i -> listenerReadyBefore (h ++ evs) i.
Proof.
  intros (j & k & Hjk & Hki & Hj & Hk). exists j, k.
  repeat split; try done; by apply lookup_app_l_Some.
Qed.

Lemma ready_later (h : list Event) (i i' : nat) :
  listenerReadyBefore h i -> (i <= i')%nat -> listenerReadyBefore h i'.
Proof.
  intros (j & k & Hjk & Hki & Hj & Hk) Hle. exists j, k. repeat split; try done. lia.
Qed.

Lemma ordered_super (id : string) (props : StackProps) : ordered (super id props).
Proof.
  unfold ordered. simpl. split; [discriminate|]. split; [discriminate|].
  intros i b _ Hi. by rewrite lookup_nil in Hi.
Qed.

(** A step that keeps the fields and records bridge events only once the
    listener is ready keeps the order. *)
Lemma ordered_grows (s s' : Stack) (evs : list Event) :
  ordered s ->
  history s' = (history s ++ evs)%list ->
  (vpc s' = vpc s \/ vpc s' = Some "VPC") ->
  internalAlbListener s' = internalAlbListener s ->
  (forall e, e ∈ evs -> e ∈ bridgeEvents ->
     listenerReadyBefore (history s) (length (history s))) ->
  ordered s'.
Proof.
  intros (Hv & Hl & Hb) Hh Hv' Hl' Hevs. split; [|split].
  - intros v Hvs. destruct Hv' as [Heq|Heq]; rewrite Heq in Hvs; [by apply Hv|congruence].
  - intros l H. rewrite Hl' in H. apply Hl in H as [-> Hr]. split; [done|]. rewrite Hh.
    apply ready_grows. apply (ready_later _ _ _ Hr). rewrite length_app. lia.
  - intros i b Hbridge Hi. rewrite Hh in Hi |- *.
    apply lookup_app_Some in Hi as [Hi|[Hge Hi]].
    + apply ready_grows. by apply (Hb i b).
    + apply ready_grows. apply (ready_later _ (length (history s))); [|done].
      apply (Hevs b); [|done]. by apply list_elem_of_lookup_2 in Hi.
Qed.

Ltac no_bridge_event :=
  let e := fresh "e" in
  let He := fresh "He" in
  let Hb := fresh "Hb" in
  intros e He Hb; exfalso; revert Hb; each_member He;
  match goal with
  | |- ?e ∈ ?l -> False => apply (bool_decide_unpack (e ∉ l)); by vm_compute
  end.

Lemma ordered_call (m : Method) (s s' : Stack) (u : unit) :
  ordered s -> call m s = Done u s' -> ordered s'.
Proof.
  intros Hord H. destruct m; simpl in H.
  - apply setupVpc_effect in H as (Hh & Hv & Hl).
    apply (ordered_grows s s' _ Hord Hh); [by right|done|no_bridge_event].
  - apply setupAlb_effect in H as (Hh & Hv & Hl).
    destruct Hord as (Hov & Hol & Hob). split; [|split].
    + intros v Hvs. rewrite Hv in Hvs. by apply Hov.
    + intros l Hls. split; [congruence|].
      rewrite Hh. exists (length (history s) + 2)%nat, (length (history s) + 3)%nat.
      rewrite length_app. simpl. split; [lia|]. split; [lia|]. split.
      * rewrite lookup_app_r by lia.
        by replace (length (history s) + 2 - length (history s))%nat with 2%nat by lia.
      * rewrite lookup_app_r by lia.
        by replace (length (history s) + 3 - length (history s))%nat with 3%nat by lia.
    + intros i b Hbridge Hi. rewrite Hh in Hi |- *.
      apply lookup_app_Some in Hi as [Hi|[Hge Hi]].
      * apply ready_grows. by apply (Hob i b).
      * exfalso. apply list_elem_of_lookup_2 in Hi. revert Hbridge.
        each_member Hi;
          match goal with
          | |- ?e ∈ ?l -> False => apply (bool_decide_unpack (e ∉ l)); by vm_compute
          end.
  - apply setupVpcEndpointsForEcr_effect in H as (v & Hv & Hh & Hv' & _ & Hl).
    pose proof Hord as (Hov & _). apply Hov in Hv as ->.
    apply (ordered_grows s s' _ Hord Hh); [by left|done|no_bridge_event].
  - apply setupEcsService_effect in H as (l & Hls & Hh & Hv' & _ & Hl).
    pose proof Hord as (_ & Hol & _). apply Hol in Hls as [-> _].
    apply (ordered_grows s s' _ Hord Hh); [by left|done|].
    unfold theListener. destruct (vpc s); simpl; no_bridge_event.
  - apply setupApiGatewayVpcLink_effect in H as ((Hh & Hv' & _ & Hl) & l & Hls).
    pose proof Hord as (_ & Hol & _). apply Hol in Hls as [_ Hr].
    by apply (ordered_grows s s' _ Hord Hh); [by left|done|].
Qed.

Lemma ordered_callAll (ms : list Method) (s s' : Stack) (u : unit) :
  ordered s -> callAll ms s = Done u s' -> ordered s'.
Proof.
  unfold callAll. revert s. induction ms as [|m ms IH]; intros s Hord H; simpl in H.
  - by apply ret_Done in H as [_ ->].
  - step H. apply (IH s0); [|done]. by apply (ordered_call m s s0 a).
Qed.

(** The constructor is one such sequence of calls. *)
Lemma constructor_callAll (id : string) (props : StackProps) :
  constructor id props =
  callAll [SetupVpc; SetupAlb; SetupVpcEndpointsForEcr; SetupEcsService;
           SetupApiGatewayVpcLink] (super id props).
Proof.
  unfold constructor, callAll. simpl. unfold mbind, M_bind.
  repeat match goal with
         | |- context [match ?m ?s with Done _ _ => _ | Thrown _ => _ end] =>
             destruct (m s) as [[] ?|?]; try reflexivity
         end.
Qed.

(** The bridge cannot be built on a stack that has no listener: where
    [setupApiGatewayVpcLink] returns, the field was set and led to a
    listener of the tree. *)
Lemma bridge_needs_listener (s s' : Stack) :
  setupApiGatewayVpcLink s = Done tt s' ->
  exists l a, internalAlbListener s = Some l /\ child l s = Some (CApplicationListener a).
Proof.
  unfold setupApiGatewayVpcLink. intros H.
  step H. read_field Hstep.
  step H. apply selectSubnets_Done in Hstep as ->.
  step H. read_field Hstep.
  step H. unfold new_VpcLink in Hstep. step Hstep. read_field Hstep0.
  apply addChild_Done in Hstep as (-> & _ & Hc1 & _ & _ & _ & Hl1).
  step H. unfold new_HttpApi in Hstep.
  apply addChild_Done in Hstep as (-> & _ & Hc2 & _ & _ & _ & Hl2).
  step H. read_field Hstep.
  step H. unfold new_HttpRoute in Hstep.
  step Hstep. read_field Hstep0.
  step Hstep. read_field Hstep0.
  step Hstep. read_field Hstep0.
  match goal with
  | Hk : lookupChild ?l (children ?s3) = Some (CApplicationListener ?a),
    Hc2 : children ?s3 = (children ?s2 ++ _)%list,
    Hc1 : children ?s2 = (children ?s1 ++ _)%list |- _ =>
      exists l, a; split; [congruence|];
      unfold child; rewrite Hc2, Hc1, !lookupChild_snoc in Hk;
      destruct (lookupChild l (children s1)); [congruence|];
      repeat case_decide; congruence
  end.
Qed.


(** C7. The bridge is never built before the listener exists and has its
    default action.  The constructor builds the listener, gives it the
    fixed response 200 "No routes defined" and builds the bridge: the VPC
    link, the HTTP API and the route that binds the integration.  In the
    history of every sequence of calls of the class's methods that returns,
    of which the constructor is one, each event of the bridge comes after
    the creation of the listener and, after that, of its default action.
    Moreover [setupApiGatewayVpcLink] returns only on a stack whose
    listener field is set and leads to a listener. *)
Theorem listener_before_bridge (id : string) (props : StackProps) :
  zones (env props) <> [] ->
  (exists st,
     constructor id props = Done tt st /\
     internalAlbListener st = Some theListener /\
     listenerDefaultAction theListener st = Some fallback /\
     (forall b, b ∈ bridgeEvents -> b ∈ history st)) /\
  constructor id props =
    callAll [SetupVpc; SetupAlb; SetupVpcEndpointsForEcr; SetupEcsService;
             SetupApiGatewayVpcLink] (super id props) /\
  (forall ms st,
     callAll ms (super id props) = Done tt st ->
     forall i b, b ∈ bridgeEvents -> history st !! i = Some b ->
       listenerReadyBefore (history st) i) /\
  (forall s s', setupApiGatewayVpcLink s = Done tt s' ->
     exists l a, internalAlbListener s = Some l /\
                 child l s = Some (CApplicationListener a)).
Proof.
  intros Hz. split; [|split; [apply constructor_callAll|split]].
  - split_zones props.
    + eexists. split; [run; reflexivity|]. do 2 (split; [run; reflexivity|]).
      intros b Hb. unfold bridgeEvents in Hb.
      each_member Hb; apply (bool_decide_unpack _); by vm_compute.
    + eexists. split; [run; reflexivity|]. do 2 (split; [run; reflexivity|]).
      intros b Hb. unfold bridgeEvents in Hb.
      each_member Hb; apply (bool_decide_unpack _); by vm_compute.
  - intros ms st Hrun.
    by apply (ordered_callAll ms (super id props) st tt (ordered_super id props)) in Hrun as (_ & _ & Hb).
  - apply bridge_needs_listener.
Qed.

(** *** The network *)

(** C8, as the code has it.  [setupVpc] never fails: [maxAzs] is an upper
    bound, and the network spans the first two zones of the environment, or
    all of them when there are fewer, without a NAT gateway. *)
Theorem zones_are_capped (id : string) (props : StackProps) :
  exists st v,
    setupVpc (super id props) = Done tt st /\
    vpc st = Some "VPC" /\
    child "VPC" st = Some (CVpc v) /\
    maxAzs v = 2%nat /\
    availabilityZones v = take 2 (zones (env props)) /\
    length (availabilityZones v) = Nat.min 2 (length (zones (env props))) /\
    natGateways v = 0%nat.
Proof.
  eexists _, _. split; [run; reflexivity|].
  do 2 (split; [run; reflexivity|]).
  split; [reflexivity|]. split; [reflexivity|]. split; [|reflexivity].
  change (length (take 2 (zones (env props))) = Nat.min 2 (length (zones (env props)))).
  apply length_take.
Qed.

(** *** The workload *)

(** C9. The service asks for two replicas of one task definition, whose
    single container maps port 80/TCP; so there are two replicas, each
    listens on 80/TCP, and each is a member of target group A and of
    target group B, where the service is registered at container port 80. *)
Theorem replicas_in_both_groups (id : string) (props : StackProps) :
  zones (env props) <> [] ->
  exists st v f c gA gB,
    constructor id props = Done tt st /\
    child "VPC" st = Some (CVpc v) /\
    child "ECSService" st = Some (CFargateService f) /\
    child targetGroupA st = Some (CApplicationTargetGroup gA) /\
    child targetGroupB st = Some (CApplicationTargetGroup gB) /\
    containersOf (taskDefinition f) (children st) = [c] /\
    maxAzs v = 2%nat /\
    desiredCount f = 2%nat /\
    length (replicas "ECSService" st) = 2%nat /\
    portMappings c = [mkPortMapping 80 Protocol.TCP] /\
    targets gA = [mkLoadBalancerTarget "ECSService" (containerName c) 80] /\
    targets gB = [mkLoadBalancerTarget "ECSService" (containerName c) 80] /\
    (forall r, r ∈ replicas "ECSService" st ->
       replicaTaskDefinition r = taskDefinition f /\
       replicaPorts r st = [mkPortMapping 80 Protocol.TCP] /\
       memberOf r targetGroupA st = true /\
       memberOf r targetGroupB st = true).
Proof.
  intros Hz. split_zones props.
  - eexists _, _, _, _, _, _. split; [run; reflexivity|].
    do 5 (split; [run; reflexivity|]). do 6 (split; [reflexivity|]).
    intros r Hr.
    match type of Hr with
    | _ ∈ replicas _ ?s =>
        change (replicas "ECSService" s)
          with [mkReplica "ECSService" "EcsTaskDefinition" 0;
                mkReplica "ECSService" "EcsTaskDefinition" 1] in Hr
    end.
    each_member Hr; repeat split; by vm_compute.
  - eexists _, _, _, _, _, _. split; [run; reflexivity|].
    do 5 (split; [run; reflexivity|]). do 6 (split; [reflexivity|]).
    intros r Hr.
    match type of Hr with
    | _ ∈ replicas _ ?s =>
        change (replicas "ECSService" s)
          with [mkReplica "ECSService" "EcsTaskDefinition" 0;
                mkReplica "ECSService" "EcsTaskDefinition" 1] in Hr
    end.
    each_member Hr; repeat split; by vm_compute.
Qed.

(** *** What the construction depends on *)

Lemma string_length_app (a b : string) :
  String.length (a +:+ b) = (String.length a + String.length b)%nat.
Proof. induction a as [|x a IH]; simpl; [done|]. by rewrite IH. Qed.

Lemma string_app_inv_tail (a b c : string) : a +:+ c = b +:+ c -> a = b.
Proof.
  revert b. induction a as [|x a IH]; intros [|y b] H.
  - done.
  - apply (f_equal String.length) in H. rewrite !string_length_app in H. simpl in H. lia.
  - apply (f_equal String.length) in H. rewrite !string_length_app in H. simpl in H. lia.
  - simpl in H. injection H as -> H. f_equal. by apply IH.
Qed.



(** *** Priorities *)


(** *** Looking up and replacing constructs *)

Lemma lookupChild_None (p : string) (cs : list (string * Construct)) :
  lookupChild p cs = None <-> p ∉ cs.*1.
Proof.
  induction cs as [|[q c] cs IH]; simpl.
  - split; [intros _; apply not_elem_of_nil|done].
  - rewrite not_elem_of_cons. destruct (decide (p = q)) as [->|Hne].
    + split; [discriminate|]. by intros [? _].
    + rewrite IH. tauto.
Qed.

Lemma lookupChild_replaceChild_ne (p q : string) (c : Construct)
    (cs : list (string * Construct)) :
  p <> q -> lookupChild p (replaceChild q c cs) = lookupChild p cs.
Proof.
  intros Hne. induction cs as [|[q' d] cs IH]; simpl; [done|].
  destruct (decide (q = q')) as [->|Hq]; simpl.
  - by rewrite !decide_False.
  - destruct (decide (p = q')); [done|]. apply IH.
Qed.

Lemma lookupChild_replaceChild_eq (q : string) (c : Construct)
    (cs : list (string * Construct)) :
  lookupChild q (replaceChild q c cs) = (fun _ => c) <$> lookupChild q cs.
Proof.
  induction cs as [|[q' d] cs IH]; simpl; [done|].
  destruct (decide (q = q')) as [->|Hq]; simpl.
  - by rewrite decide_True.
  - by rewrite decide_False.
Qed.

(** *** Running a step forward *)







Lemma loadBalancerTarget_result (svc name : string) (s s' : Stack) (t : LoadBalancerTarget) :
  loadBalancerTarget svc name s = Done t s' ->
  s' = s /\ targetService t = svc /\ exists f, child svc s = Some (CFargateService f).
Proof.
  unfold loadBalancerTarget. intros H. next H R1. read_field R1.
  unfold mbind, M_bind, get, mret, M_ret, throw in H. simpl in H.
  unfold child. repeat case_match; simplify_eq; eauto.
Qed.





(** ** More about the methods *)

(** *** What each step does to the tree *)

Lemma keeps_same (s s' : Stack) : children s' = children s -> keeps [] s s'.
Proof. unfold keeps, child. intros ->. split; intros p c; eauto. Qed.

Lemma keeps_trans (Q1 Q2 : list string) (s s1 s2 : Stack) :
  keeps Q1 s s1 -> keeps Q2 s1 s2 -> keeps (Q1 ++ Q2) s s2.
Proof.
  intros [S1 K1] [S2 K2]. split.
  - intros p c Hp. destruct (S1 p c Hp) as [c1 Hc1]. by apply (S2 p c1).
  - intros p c Hq Hp. apply not_elem_of_app in Hq as [Hq1 Hq2].
    apply (K2 p c Hq2). by apply K1.
Qed.

Lemma keeps_weaken (Q Q' : list string) (s s' : Stack) :
  keeps Q s s' -> (forall q, q ∈ Q -> q ∈ Q') -> keeps Q' s s'.
Proof.
  intros [S K] Hsub. split; [done|]. intros p c Hq Hp. apply (K p c); [|done].
  intros Hin. by apply Hq, Hsub.
Qed.

(** What is changed on the way was not there at the start, if it was
    created on the way. *)
Lemma keeps_fresh (Q : list string) (s s' : Stack) :
  keeps Q s s' -> (forall q, q ∈ Q -> child q s = None) -> keeps [] s s'.
Proof.
  intros [S K] Hfresh. split; [done|]. intros p c _ Hp. apply (K p c); [|done].
  intros Hq. rewrite (Hfresh p Hq) in Hp. discriminate.
Qed.

Lemma keeps_None (Q : list string) (s s' : Stack) (p : string) :
  keeps Q s s' -> child p s' = None -> child p s = None.
Proof.
  intros [S _] Hnone. destruct (child p s) as [c|] eqn:Hp; [|done].
  destruct (S p c Hp) as [c' Hc']. congruence.
Qed.

Lemma addChild_props (p h : string) (c : Construct) (s s' : Stack) :
  addChild p c s = Done h s' -> stackProps s' = stackProps s.
Proof.
  unfold addChild, mbind, M_bind, get, put, record, mret, M_ret, throw. simpl.
  case_decide; [discriminate|]. by intros [= <- <-].
Qed.

Lemma addChild_keeps (p h : string) (c : Construct) (s s' : Stack) :
  addChild p c s = Done h s' ->
  h = p /\ child p s = None /\ child p s' = Some c /\ keeps [] s s'.
Proof.
  intros H. apply addChild_Done in H as (-> & Hfresh & Hc & _).
  apply lookupChild_None in Hfresh. unfold keeps, child. rewrite Hc.
  split; [done|]. split; [done|]. split.
  - by rewrite lookupChild_snoc, Hfresh, decide_True.
  - split; intros q d; [intros Hq|intros _ Hq]; rewrite lookupChild_snoc, Hq; eauto.
Qed.

Lemma setChild_keeps (q : string) (c : Construct) (s s' : Stack) (u : unit) :
  setChild q c s = Done u s' ->
  keeps [q] s s' /\ (is_Some (child q s) -> child q s' = Some c).
Proof.
  unfold setChild, mbind, M_bind, get, put. simpl. intros H. simplify_eq.
  unfold keeps, child. simpl. split; [split|].
  - intros p d Hp. destruct (decide (p = q)) as [->|Hne].
    + rewrite lookupChild_replaceChild_eq, Hp. eauto.
    + rewrite lookupChild_replaceChild_ne, Hp by done. eauto.
  - intros p d Hq Hp. rewrite not_elem_of_cons in Hq. destruct Hq as [Hne _].
    by rewrite lookupChild_replaceChild_ne.
  - intros [d Hd]. by rewrite lookupChild_replaceChild_eq, Hd.
Qed.

Lemma record_keeps (e : Event) (s s' : Stack) (u : unit) :
  record e s = Done u s' -> keeps [] s s'.
Proof.
  unfold record, mbind, M_bind, get, put. simpl. intros H. simplify_eq.
  by apply keeps_same.
Qed.

Lemma forEach_keeps {A} (Q : list string) (xs : list A) (body : A -> M unit) :
  (forall x s u s', x ∈ xs -> body x s = Done u s' -> keeps Q s s') ->
  forall s u s', forEach xs body s = Done u s' -> keeps Q s s'.
Proof.
  induction xs as [|x xs IH]; intros Hbody s u s' H; simpl in H.
  - unfold mret, M_ret in H. simplify_eq. split; eauto.
  - step H. apply Hbody in Hstep as [S1 K1]; [|by left].
    apply IH in H as [S2 K2]; [|intros y ? ? ? Hy; apply Hbody; by right]. split.
    + intros p c Hp. destruct (S1 p c Hp) as [c1 Hc1]. by apply (S2 p c1).
    + intros p c Hq Hp. apply (K2 p c Hq). by apply K1.
Qed.

(** [selectSubnets] returns the subnets of one type of the network that
    the handle leads to, and there is at least one. *)
Lemma selectSubnets_result (v : string) (sel : SubnetSelection) (s s' : Stack)
    (sns : list Subnet) :
  selectSubnets v sel s = Done sns s' ->
  s' = s /\ sns <> [] /\
  exists net, child v s = Some (CVpc net) /\
    sns = subnetsOfType (match selSubnetType sel with
                         | Some t => t
                         | None => defaultSubnetType net
                         end) net.
Proof.
  unfold selectSubnets. intros H. step H. read_field Hstep.
  match goal with Hv : lookupChild v _ = Some (CVpc ?n) |- _ => rename n into net end.
  simpl in H.
  destruct (subnetsOfType _ net) as [|sn rest] eqn:Hsel; [discriminate|].
  apply ret_Done in H as [-> ->]. split; [done|]. split; [done|].
  exists net. split; [done|]. by rewrite Hsel.
Qed.

(** The network that [new Vpc] builds over the zones of the stack. *)
Lemma new_Vpc_keeps (id h : string) (n g : nat) (s s' : Stack) :
  new_Vpc id n g s = Done h s' ->
  h = id /\ child id s = None /\ keeps [] s s' /\
  exists net,
    child id s' = Some (CVpc net) /\
    availabilityZones net = take n (zones (env (stackProps s))) /\
    natGateways net = Nat.min g (length (availabilityZones net)) /\
    subnets net = createSubnets (defaultSubnetConfiguration g) (availabilityZones net).
Proof.
  unfold new_Vpc. intros H. step H. read_field Hstep.
  apply addChild_keeps in H as (-> & Hf & Hc & Hk).
  split; [done|]. split; [done|]. split; [done|]. eexists. split; [exact Hc|]. done.
Qed.

Lemma new_SecurityGroup_keeps (id v h : string) (s s' : Stack) :
  new_SecurityGroup id v s = Done h s' ->
  h = id /\ child id s = None /\
  child id s' = Some (CSecurityGroup (mkSecurityGroup v [])) /\ keeps [] s s'.
Proof.
  unfold new_SecurityGroup. intros H. step H. read_field Hstep.
  by apply addChild_keeps in H.
Qed.

Lemma addIngressRule_keeps (sg : string) (peer : Peer.t) (c : Port.t) (s s' : Stack)
    (u : unit) :
  addIngressRule sg peer c s = Done u s' ->
  keeps [sg] s s' /\
  exists g, child sg s = Some (CSecurityGroup g) /\
    child sg s' = Some (CSecurityGroup
                          (SecurityGroup_addIngressRule (mkIngressRule peer c) g)).
Proof.
  unfold addIngressRule. intros H. step H. read_field Hstep.
  apply setChild_keeps in H as [Hk Hset]. split; [done|].
  eexists. split; [done|]. apply Hset. unfold child. eauto.
Qed.

(** The loop of [setupVpcEndpointsForEcr] on the tree: the group under the
    handle becomes the derived group, and nothing else changes. *)
Lemma allowHttpsFrom_run (sg : string) (sns : list Subnet) (g : SecurityGroup)
    (s s' : Stack) (u : unit) :
  child sg s = Some (CSecurityGroup g) ->
  forEach sns (fun sn => addIngressRule sg (Peer.ipv4 (ipv4CidrBlock sn)) (Port.tcp 443)) s
    = Done u s' ->
  child sg s' = Some (CSecurityGroup (allowHttpsFrom sns g)) /\ keeps [sg] s s'.
Proof.
  revert g s. induction sns as [|sn sns IH]; intros g s Hg H; simpl in H.
  - apply ret_Done in H as [_ ->]. split; [done|]. split; eauto.
  - step H. apply addIngressRule_keeps in Hstep as (Hk1 & g' & Hg' & Hg1).
    rewrite Hg in Hg'. simplify_eq.
    apply (IH _ _ Hg1) in H as [Hfinal Hk2]. split; [done|].
    destruct Hk1 as [S1 K1], Hk2 as [S2 K2]. split.
    + intros p c Hp. destruct (S1 p c Hp) as [c1 Hc1]. by apply (S2 p c1).
    + intros p c Hq Hp. apply (K2 p c Hq). by apply K1.
Qed.

Lemma new_ApplicationLoadBalancer_keeps (id v g h : string) (f : bool)
    (sel : SubnetSelection) (s s' : Stack) :
  new_ApplicationLoadBalancer id v f sel g s = Done h s' ->
  h = id /\ child id s = None /\ keeps [] s s' /\
  exists sns,
    child id s' = Some (CApplicationLoadBalancer (mkApplicationLoadBalancer v f sns g)).
Proof.
  unfold new_ApplicationLoadBalancer. intros H.
  step H. apply selectSubnets_Done in Hstep as ->.
  step H. read_field Hstep. apply addChild_keeps in H as (-> & Hf & Hc & Hk). eauto 10.
Qed.

(** The listener opens the security group of its load balancer to any
    address on its port; nothing else changes. *)
Lemma addListener_keeps (alb id h : string) (port : nat) (s s' : Stack) :
  addListener alb id port s = Done h s' ->
  h = alb +:+ "/" +:+ id /\ child h s = None /\
  child h s' = Some (CApplicationListener (mkApplicationListener alb port None)) /\
  exists b g,
    child alb s = Some (CApplicationLoadBalancer b) /\
    child (albSecurityGroup b) s = Some (CSecurityGroup g) /\
    child (albSecurityGroup b) s' =
      Some (CSecurityGroup
              (SecurityGroup_addIngressRule (mkIngressRule Peer.anyIpv4 (Port.tcp port)) g)) /\
    keeps [albSecurityGroup b] s s'.
Proof.
  unfold addListener. intros H. next H R1. read_field R1.
  match goal with
  | Hb : lookupChild alb _ = Some (CApplicationLoadBalancer ?x) |- _ => rename x into b
  end.
  next H R2. apply addIngressRule_keeps in R2 as (Hk1 & g & Hg & Hg').
  apply addChild_keeps in H as (-> & Hf & Hc & Hk2).
  split; [done|]. split; [exact (keeps_None _ _ _ _ Hk1 Hf)|]. split; [done|].
  exists b, g. split; [done|]. split; [done|]. split.
  - destruct Hk2 as [_ K]. by apply K; [apply not_elem_of_nil|].
  - apply (keeps_trans _ _ _ _ _ Hk1 Hk2).
Qed.

(** Opening the groups of a target to a load balancer changes those
    groups only. *)
Lemma registerConnectable_keeps (l : string) (gs : list string) (pr : Port.t)
    (s s' : Stack) (u : unit) :
  registerConnectable l gs pr s = Done u s' -> keeps gs s s'.
Proof.
  unfold registerConnectable. intros H. next H R1. read_field R1.
  next H R2. read_field R2.
  eapply forEach_keeps; [|exact H].
  intros g s1 u1 s1' Hin Hb. apply addIngressRule_keeps in Hb as [Hk _].
  apply (keeps_weaken _ _ _ _ Hk). intros q Hq. apply list_elem_of_singleton in Hq. by subst.
Qed.

Lemma setDefaultAction_keeps (l : string) (code : nat) (body : string) (s s' : Stack)
    (u : unit) :
  setDefaultAction l (ListenerAction.fixedResponse code body) s = Done u s' ->
  keeps [l] s s' /\
  exists x, child l s = Some (CApplicationListener x) /\
    child l s' = Some (CApplicationListener
                         (mkApplicationListener (listenerLoadBalancer x) (listenerPort x)
                            (Some (ListenerAction.fixedResponse code body)))).
Proof.
  unfold setDefaultAction. intros H. next H R1. read_field R1.
  next H R2. simpl in R2. apply ret_Done in R2 as [_ ->].
  next H R3. apply setChild_keeps in R3 as [Hk Hset]. apply record_keeps in H.
  split.
  - apply (keeps_trans _ _ _ _ _ Hk H).
  - eexists. split; [done|]. destruct H as [_ K]. apply (K l); [apply not_elem_of_nil|].
    apply Hset. unfold child. eauto.
Qed.

Lemma addAction_default_keeps (l id : string) (code : nat) (body : string) (s s' : Stack)
    (u : unit) :
  addAction l id (ListenerAction.fixedResponse code body) None [] s = Done u s' ->
  keeps [l] s s' /\
  exists x, child l s = Some (CApplicationListener x) /\
    child l s' = Some (CApplicationListener
                         (mkApplicationListener (listenerLoadBalancer x) (listenerPort x)
                            (Some (ListenerAction.fixedResponse code body)))).
Proof.
  unfold addAction. intros H. step H. simpl in Hstep.
  apply ret_Done in Hstep as [_ ->]. by apply setDefaultAction_keeps in H.
Qed.

(** An interface endpoint with one security group opens that group to the
    address range of the network on the port of its service; nothing else
    changes. *)
Lemma addInterfaceEndpoint_keeps (v id h sg : string) (svc : VpcEndpointService)
    (sel : SubnetSelection) (dns : bool) (s s' : Stack) :
  addInterfaceEndpoint v id svc sel [sg] dns s = Done h s' ->
  h = v +:+ "/" +:+ id /\ child h s = None /\ keeps [sg] s s' /\
  exists net g sns,
    child v s = Some (CVpc net) /\
    child sg s = Some (CSecurityGroup g) /\
    child sg s' =
      Some (CSecurityGroup
              (SecurityGroup_addIngressRule
                 (mkIngressRule (Peer.ipv4 (vpcCidrBlock net)) (Port.tcp (servicePort svc))) g)) /\
    child h s' = Some (CInterfaceVpcEndpoint (mkInterfaceVpcEndpoint v svc sns [sg] dns)).
Proof.
  unfold addInterfaceEndpoint. intros H.
  next H R1. read_field R1.
  match goal with
  | Hv : lookupChild v _ = Some (CVpc ?x) |- _ => rename x into net
  end.
  simpl in H. next H R2. next R2 R3.
  apply addIngressRule_keeps in R3 as (Hk1 & g & Hg & Hg').
  apply ret_Done in R2 as [_ ->].
  next H R4. apply selectSubnets_Done in R4 as ->.
  apply addChild_keeps in H as (-> & Hf & Hc & Hk2).
  split; [done|]. split; [exact (keeps_None _ _ _ _ Hk1 Hf)|]. split.
  - apply (keeps_trans _ _ _ _ _ Hk1 Hk2).
  - exists net, g. eexists. split; [done|]. split; [done|]. split; [|exact Hc].
    destruct Hk2 as [_ K]. by apply K; [apply not_elem_of_nil|].
Qed.

Lemma addGatewayEndpoint_keeps (v id h : string) (svc : VpcEndpointService)
    (sels : list SubnetSelection) (s s' : Stack) :
  addGatewayEndpoint v id svc sels s = Done h s' ->
  h = v +:+ "/" +:+ id /\ child h s = None /\ keeps [] s s' /\
  exists snss, selectAll v sels s = Done snss s /\
    child h s' = Some (CGatewayVpcEndpoint (mkGatewayVpcEndpoint v svc snss)).
Proof.
  unfold addGatewayEndpoint. intros H.
  step H. pose proof Hstep as Hsel. apply selectAll_Done in Hstep as ->.
  apply addChild_keeps in H as (-> & Hf & Hc & Hk). eauto 10.
Qed.

(** A cluster that is given no network builds its own below itself. *)
Lemma new_Cluster_keeps (id n h : string) (v : option string) (s s' : Stack) :
  new_Cluster id n v s = Done h s' ->
  h = id /\ child id s = None /\ keeps [] s s' /\
  child id s' = Some (CCluster (mkCluster n (default (id +:+ "/" +:+ "Vpc") v))) /\
  (v = None ->
   child (id +:+ "/" +:+ "Vpc") s = None /\
   exists net,
     child (id +:+ "/" +:+ "Vpc") s' = Some (CVpc net) /\
     availabilityZones net = take 2 (zones (env (stackProps s))) /\
     natGateways net = length (availabilityZones net) /\
     subnets net =
       createSubnets [SubnetType.PUBLIC; SubnetType.PRIVATE_WITH_EGRESS] (availabilityZones net)).
Proof.
  unfold new_Cluster. intros H. destruct v as [v|]; simpl.
  - next H R1. read_field R1.
    apply addChild_keeps in H as (-> & Hf & Hc & Hk).
    do 4 (split; [done|]). discriminate.
  - next H R1. pose proof (addChild_props _ _ _ _ _ R1) as Hprops.
    apply addChild_keeps in R1 as (-> & Hf & Hc & Hk1).
    next H R2. unfold new_Vpc_withNat in R2.
    apply new_Vpc_keeps in R2 as (-> & Hfv & Hk2 & net & Hnet & Hazs & Hnat & Hsubs).
    apply ret_Done in H as [-> ->].
    split; [done|]. split; [done|]. split; [apply (keeps_trans _ _ _ _ _ Hk1 Hk2)|].
    split; [destruct Hk2 as [_ K]; by apply K; [apply not_elem_of_nil|]|].
    intros _. split; [exact (keeps_None _ _ _ _ Hk1 Hfv)|].
    exists net. split; [done|]. rewrite Hprops in Hazs. split; [done|]. split; [|done].
    rewrite Hnat, Hazs, length_take. lia.
Qed.

Lemma addContainer_keeps (td id h : string) (img : ContainerImage.t) (lg : LogDriver.t)
    (pms : list PortMapping) (s s' : Stack) :
  addContainer td id img lg pms s = Done h s' ->
  h = td +:+ "/" +:+ id /\ child h s = None /\ keeps [] s s'.
Proof.
  unfold addContainer. intros H. step H. read_field Hstep.
  by apply addChild_keeps in H as (-> & Hf & _ & Hk).
Qed.

(** The service and its security group are new; the service goes to the
    network of its cluster. *)
Lemma new_FargateService_keeps (id cl td h : string) (n : nat) (ip : bool) (s s' : Stack) :
  new_FargateService id cl td n ip s = Done h s' ->
  h = id /\ child id s = None /\ keeps [] s s' /\
  child (id +:+ "/" +:+ "SecurityGroup") s = None /\
  exists c net sns,
    child cl s = Some (CCluster c) /\
    child (clusterVpc c) s = Some (CVpc net) /\
    sns = subnetsOfType (if ip then SubnetType.PUBLIC else defaultSubnetType net) net /\
    sns <> [] /\
    child id s' =
      Some (CFargateService
              (mkFargateService cl td n ip sns [id +:+ "/" +:+ "SecurityGroup"])) /\
    child (id +:+ "/" +:+ "SecurityGroup") s' =
      Some (CSecurityGroup (mkSecurityGroup (clusterVpc c) [])).
Proof.
  unfold new_FargateService. intros H.
  next H R1. read_field R1.
  match goal with
  | Hc : lookupChild cl _ = Some (CCluster ?x) |- _ => rename x into c
  end.
  next H R2. read_field R2.
  next H R3. apply selectSubnets_result in R3 as (-> & Hne & net & Hnet & Hsns).
  next H R4. apply addChild_keeps in R4 as (-> & Hf & Hc & Hk1).
  next H R5. apply new_SecurityGroup_keeps in R5 as (-> & Hfsg & Hsg & Hk2).
  apply ret_Done in H as [-> ->].
  split; [done|]. split; [done|]. split; [apply (keeps_trans _ _ _ _ _ Hk1 Hk2)|].
  split; [exact (keeps_None _ _ _ _ Hk1 Hfsg)|].
  exists c, net. eexists. split; [done|]. split; [done|].
  split; [|split; [exact Hne|split; [|exact Hsg]]].
  - rewrite Hsns. by destruct ip.
  - destruct Hk2 as [_ K]. by apply K; [apply not_elem_of_nil|].
Qed.

(** Registering a target changes the security groups of its service and
    nothing else. *)
Lemma ListenerConfig_addTargets_keeps (cfg : ListenerConfig) (id name svc : string) (p : Z)
    (c : ListenerCondition.t) (cs : list ListenerCondition.t) (s s' : Stack) (u : unit) :
  propPriority (configProps cfg) = Some p ->
  propConditions (configProps cfg) = c :: cs ->
  ListenerConfig_addTargets cfg id name svc s = Done u s' ->
  exists f, child svc s = Some (CFargateService f) /\ keeps (serviceSecurityGroups f) s s'.
Proof.
  intros Hp Hc. unfold ListenerConfig_addTargets, addTargets, addTargetGroups. intros H.
  next H R1. apply loadBalancerTarget_result in R1 as (-> & Hts & f & Hf).
  next H R2. next R2 R3. read_field R3.
  next R2 R4. apply addChild_keeps in R4 as (-> & Hfg & Hgc & Hk1).
  next R2 R5. next R5 R6. rewrite Hp, Hc in *. simpl in R6.
  apply ret_Done in R6 as [_ ->].
  next R5 R7. unfold new_ApplicationListenerRule in R7.
  next R7 R8. read_field R8. lazy iota in R7.
  destruct (p <=? 0)%Z; [discriminate|].
  next R7 R9. apply addChild_keeps in R9 as (-> & Hfr & Hrc & Hk2).
  pose proof (keeps_trans _ _ _ _ _ Hk1 Hk2) as Hk12. simpl in Hk12.
  destruct Hk12 as [S12 K12].
  pose proof (proj2 Hk2 _ _ (not_elem_of_nil _) Hgc) as Hgc2.
  pose proof (K12 _ _ (not_elem_of_nil _) Hf) as Hf2.
  next R7 R10. simpl in R10. next R10 R11.
  unfold registerListener in R11. next R11 R12. read_field R12.
  unfold child in Hgc2.
  match goal with
  | Hx : lookupChild _ _ = Some (CApplicationTargetGroup ?g) |- _ =>
      rewrite Hgc2 in Hx; injection Hx as <-
  end.
  simpl in R11. next R11 R13. next R13 R14. read_field R14.
  unfold child in Hf2.
  match goal with
  | Hx : lookupChild _ _ = Some (CFargateService ?g) |- _ =>
      rewrite Hf2 in Hx; injection Hx as <-
  end.
  apply registerConnectable_keeps in R13.
  apply ret_Done in R11 as [_ ->]. apply ret_Done in R10 as [_ ->].
  apply ret_Done in R7 as [_ ->]. apply ret_Done in R5 as [_ ->].
  apply ret_Done in R2 as [_ ->]. apply ret_Done in H as [_ ->].
  exists f. split; [done|].
  apply (keeps_trans [] _ _ _ _ (conj S12 K12) R13).
Qed.

Lemma new_VpcLink_keeps (id v n h : string) (sns : list Subnet) (s s' : Stack) :
  new_VpcLink id v n sns s = Done h s' ->
  h = id /\ child id s = None /\
  child id s' = Some (CVpcLink (mkVpcLink v n sns)) /\ keeps [] s s'.
Proof.
  unfold new_VpcLink. intros H. step H. read_field Hstep. by apply addChild_keeps in H.
Qed.

Lemma new_HttpRoute_keeps (id api h : string) (i : HttpAlbIntegration) (k : HttpRouteKey.t)
    (s s' : Stack) :
  new_HttpRoute id api i k s = Done h s' -> h = id /\ child id s = None /\ keeps [] s s'.
Proof.
  unfold new_HttpRoute. intros H.
  step H. read_field Hstep. step H. read_field Hstep. step H. read_field Hstep.
  by apply addChild_keeps in H as (-> & Hf & _ & Hk).
Qed.

(** *** What each method does to the tree *)

Ltac plain_keeps :=
  repeat match goal with
         | H : keeps ?Q (mkStack _ _ _ _ _ (children ?s) _) ?s' |- _ =>
             change (keeps Q s s') in H
         | H : child ?p (mkStack _ _ _ _ _ (children ?s) _) = ?c |- _ =>
             change (child p s = c) in H
         end.

Lemma setupVpc_tree (s s' : Stack) (u : unit) :
  setupVpc s = Done u s' ->
  child "VPC" s = None /\ (exists net, child "VPC" s' = Some (CVpc net)) /\ keeps [] s s'.
Proof.
  unfold setupVpc. intros H.
  step H. apply new_Vpc_keeps in Hstep as (-> & Hf & Hk & net & Hc & _). set_field H.
  split; [done|]. split; [by exists net|]. exact Hk.
Qed.

Lemma addIngressRule_twice (r : IngressRule) (g : SecurityGroup) :
  SecurityGroup_addIngressRule r (SecurityGroup_addIngressRule r g) =
  SecurityGroup_addIngressRule r g.
Proof. apply addIngressRule_present, addIngressRule_rules. by right. Qed.

Lemma setupAlb_tree (s s' : Stack) (u : unit) :
  setupAlb s = Done u s' ->
  exists v,
    vpc s = Some v /\
    child "InternalAlbSg" s = None /\
    keeps [] s s' /\
    child "InternalAlbSg" s' =
      Some (CSecurityGroup
              (SecurityGroup_addIngressRule (mkIngressRule Peer.anyIpv4 (Port.tcp 80))
                                            (mkSecurityGroup v []))) /\
    child theListener s' =
      Some (CApplicationListener (mkApplicationListener "InternalAlb" 80 (Some fallback))).
Proof.
  unfold setupAlb. intros H.
  next H R1. read_field R1.
  next H R2. apply new_SecurityGroup_keeps in R2 as (-> & Hfsg & Hsg & Hk1).
  next H R3. apply addIngressRule_keeps in R3 as (Hk2 & g & Hg & Hg').
  rewrite Hsg in Hg. simplify_eq.
  next H R4. read_field R4.
  next H R5. apply new_ApplicationLoadBalancer_keeps in R5 as (-> & Hfb & Hk3 & sns & Hb).
  next H R6. set_field R6.
  next H R7. read_field R7.
  next H R8. apply addListener_keeps in R8 as (-> & Hfl & Hl & b & g & Hb' & Hg & Hg2 & Hk4).
  plain_keeps. rewrite Hb in Hb'. injection Hb' as <-. simpl in Hg, Hg2, Hk4.
  rewrite (proj2 Hk3 _ _ (not_elem_of_nil _) Hg') in Hg. injection Hg as <-.
  rewrite addIngressRule_twice in Hg2.
  next H R9. set_field R9.
  next H R10. read_field R10.
  apply addAction_default_keeps in H as (Hk5 & x & Hx & Hx').
  plain_keeps. rewrite Hl in Hx. injection Hx as <-. simpl in Hx'.
  pose proof (keeps_trans _ _ _ _ _ Hk1 Hk2) as K12.
  pose proof (keeps_trans _ _ _ _ _ K12 Hk3) as K13.
  pose proof (keeps_trans _ _ _ _ _ K13 Hk4) as K14.
  pose proof (keeps_trans _ _ _ _ _ K14 Hk5) as K15. simpl in K13, K15.
  eexists. split; [reflexivity|]. split; [exact Hfsg|]. split; [|split].
  - apply (keeps_fresh _ _ _ K15). intros q Hq. each_member Hq; [exact Hfsg|exact Hfsg|].
    exact (keeps_None _ _ _ _ K13 Hfl).
  - destruct Hk5 as [_ K5]. apply K5; [|exact Hg2].
    apply (bool_decide_unpack _). by vm_compute.
  - exact Hx'.
Qed.

(** The services of the platform that the stack names are served on
    port 443. *)
Lemma awsService_port (s s' : Stack) (svc : VpcEndpointService) :
  InterfaceVpcEndpointAwsService_CLOUDWATCH_LOGS s = Done svc s' \/
  GatewayVpcEndpointAwsService_S3 s = Done svc s' -> servicePort svc = 443%nat.
Proof.
  unfold InterfaceVpcEndpointAwsService_CLOUDWATCH_LOGS, GatewayVpcEndpointAwsService_S3,
    awsServiceName, mbind, M_bind, get, mret, M_ret.
  intros [H|H]; by simplify_eq.
Qed.

Lemma this_vpc_Done (s s' : Stack) (v : string) :
  this_vpc s = Done v s' -> s' = s /\ vpc s = Some v.
Proof.
  unfold this_vpc, mbind, M_bind, get, mret, M_ret, throw. simpl.
  destruct (vpc s); [|discriminate]. intros H. by simplify_eq.
Qed.

Lemma keeps_step (Q : list string) (s s1 s2 : Stack) :
  keeps Q s s1 -> keeps Q s1 s2 -> keeps Q s s2.
Proof.
  intros K1 K2. apply (keeps_weaken _ _ _ _ (keeps_trans _ _ _ _ _ K1 K2)).
  intros q Hq. apply elem_of_app in Hq. tauto.
Qed.

Lemma keeps_more (Q : list string) (s s' : Stack) : keeps [] s s' -> keeps Q s s'.
Proof. intros K. apply (keeps_weaken _ _ _ _ K). intros q Hq. by apply elem_of_nil in Hq. Qed.

(** One more interface endpoint on port 443 leaves the group of the
    endpoints as it is, once the rule of the network is there. *)
Lemma endpointGroup_again (v : string) (net : Vpc) :
  SecurityGroup_addIngressRule (mkIngressRule (Peer.ipv4 (vpcCidrBlock net)) (Port.tcp 443))
    (endpointGroup v net) = endpointGroup v net.
Proof. apply addIngressRule_twice. Qed.

Lemma setupVpcEndpointsForEcr_tree (s s' : Stack) (u : unit) :
  setupVpcEndpointsForEcr s = Done u s' ->
  exists v net,
    vpc s = Some v /\
    child v s = Some (CVpc net) /\
    subnetsOfType SubnetType.PRIVATE_ISOLATED net <> [] /\
    child "InterfaceEndpointSecurityGroup" s = None /\
    keeps [] s s' /\
    child "InterfaceEndpointSecurityGroup" s' = Some (CSecurityGroup (endpointGroup v net)).
Proof.
  unfold setupVpcEndpointsForEcr. intros H.
  next H R1. apply this_vpc_Done in R1 as [-> Hv].
  next H R2. apply selectSubnets_result in R2 as (-> & Hne & net & Hnet & ->).
  next H R3. apply this_vpc_Done in R3 as [-> Hv3]. rewrite Hv in Hv3. injection Hv3 as <-.
  next H R4. pose proof (new_SecurityGroup_grew _ _ _ _ _ R4) as (_ & _ & F4 & _).
  apply new_SecurityGroup_keeps in R4 as (-> & Hfsg & Hsg & Hk1).
  next H R5.
  assert (F5 : vpc s1 = vpc s0).
  { eapply forEach_grew in R5 as (_ & F & _); [exact F|].
    intros sn s3 u3 s3' Hb. by apply addIngressRule_grew in Hb. }
  apply (allowHttpsFrom_run _ _ _ _ _ _ Hsg) in R5 as [Hderived Hk2].
  pose proof (keeps_step _ _ _ _ (keeps_more _ _ _ Hk1) Hk2) as K2.
  assert (Hsame : forall s2, keeps ["InterfaceEndpointSecurityGroup"] s s2 ->
                    child a s2 = Some (CVpc net)).
  { intros s2 [_ K]. apply K; [|exact Hnet].
    intros Hin. apply list_elem_of_singleton in Hin. subst a. congruence. }
  next H R6. apply this_vpc_Done in R6 as [-> Hv6].
  rewrite F5, F4, Hv in Hv6. injection Hv6 as <-.
  next H R7. pose proof (addInterfaceEndpoint_grew _ _ _ _ _ _ _ _ _ R7) as (_ & _ & F7 & _).
  apply addInterfaceEndpoint_keeps in R7
    as (-> & _ & Hk3 & net3 & g3 & sns3 & Hn3 & Hg3 & Hg3' & _).
  rewrite (Hsame _ K2) in Hn3. injection Hn3 as <-.
  rewrite Hderived in Hg3. injection Hg3 as <-.
  change (child "InterfaceEndpointSecurityGroup" s2 = Some (CSecurityGroup (endpointGroup a net)))
    in Hg3'.
  pose proof (keeps_step _ _ _ _ K2 Hk3) as K3.
  next H R8. apply this_vpc_Done in R8 as [-> Hv8].
  rewrite F7, F5, F4, Hv in Hv8. injection Hv8 as <-.
  next H R9. pose proof (addInterfaceEndpoint_grew _ _ _ _ _ _ _ _ _ R9) as (_ & _ & F9 & _).
  apply addInterfaceEndpoint_keeps in R9
    as (-> & _ & Hk4 & net4 & g4 & sns4 & Hn4 & Hg4 & Hg4' & _).
  rewrite (Hsame _ K3) in Hn4. injection Hn4 as <-.
  rewrite Hg3' in Hg4. injection Hg4 as <-.
  simpl servicePort in Hg4'. rewrite endpointGroup_again in Hg4'.
  pose proof (keeps_step _ _ _ _ K3 Hk4) as K4.
  next H R10. apply this_vpc_Done in R10 as [-> Hv10].
  rewrite F9, F7, F5, F4, Hv in Hv10. injection Hv10 as <-.
  next H R11. pose proof (awsService_port _ _ _ (or_introl R11)) as Hport.
  match type of R11 with
  | _ ?sa = Done _ ?sb => assert (sb = sa) as -> by (eapply awsService_Done; left; exact R11)
  end.
  next H R12. pose proof (addInterfaceEndpoint_grew _ _ _ _ _ _ _ _ _ R12) as (_ & _ & F12 & _).
  apply addInterfaceEndpoint_keeps in R12
    as (-> & _ & Hk5 & net5 & g5 & sns5 & Hn5 & Hg5 & Hg5' & _).
  rewrite (Hsame _ K4) in Hn5. injection Hn5 as <-.
  rewrite Hg4' in Hg5. injection Hg5 as <-.
  rewrite Hport, endpointGroup_again in Hg5'.
  pose proof (keeps_step _ _ _ _ K4 Hk5) as K5.
  next H R13. apply this_vpc_Done in R13 as [-> _].
  next H R14.
  match type of R14 with
  | _ ?sa = Done _ ?sb => assert (sb = sa) as -> by (eapply awsService_Done; right; exact R14)
  end.
  next H R15. apply addGatewayEndpoint_keeps in R15 as (-> & _ & Hk6 & _).
  apply ret_Done in H as [_ ->].
  pose proof (keeps_step _ _ _ _ K5 (keeps_more _ _ _ Hk6)) as K6.
  exists a, net. split; [done|]. split; [exact Hnet|]. split; [exact Hne|].
  split; [exact Hfsg|]. split.
  - apply (keeps_fresh _ _ _ K6). intros q Hq. by each_member Hq.
  - destruct Hk6 as [_ K]. apply K; [apply not_elem_of_nil|]. exact Hg5'.
Qed.

Lemma setupEcsService_tree (s s' : Stack) (u : unit) :
  setupEcsService s = Done u s' ->
  is_Some (internalAlbListener s) /\
  child "ECSCluster" s = None /\
  keeps [] s s' /\
  exists net f,
    child "ECSCluster" s' =
      Some (CCluster (mkCluster "SampleApi" (default "ECSCluster/Vpc" (vpc s)))) /\
    child (default "ECSCluster/Vpc" (vpc s)) s' = Some (CVpc net) /\
    child "ECSService" s' = Some (CFargateService f) /\
    cluster f = "ECSCluster" /\
    serviceSubnets f = subnetsOfType (defaultSubnetType net) net /\
    serviceSubnets f <> [] /\
    (vpc s = None ->
     child "ECSCluster/Vpc" s = None /\
     availabilityZones net = take 2 (zones (env (stackProps s))) /\
     natGateways net = length (availabilityZones net) /\
     subnets net =
       createSubnets [SubnetType.PUBLIC; SubnetType.PRIVATE_WITH_EGRESS]
         (availabilityZones net)).
Proof.
  intros H. pose proof (setupEcsService_effect _ _ _ H) as (l & Hl & _).
  unfold setupEcsService in H.
  next H R1. apply this_vpc_or_undefined_Done in R1 as [-> ->].
  next H R2. apply new_Cluster_keeps in R2 as (-> & Hf & Hk1 & Hcl & Hown).
  next H R3. unfold new_FargateTaskDefinition in R3.
  apply addChild_keeps in R3 as (-> & _ & _ & Hk2).
  next H R4. unfold Repository_fromRepositoryName in R4.
  apply addChild_keeps in R4 as (-> & _ & _ & Hk3).
  next H R5. apply ContainerImage_fromEcrRepository_Done in R5 as ->.
  next H R6. apply addContainer_keeps in R6 as (-> & _ & Hk4).
  pose proof (keeps_step _ _ _ _ (keeps_step _ _ _ _ Hk2 Hk3) Hk4) as K24.
  pose proof (keeps_step _ _ _ _ Hk1 K24) as K14.
  next H R7. apply new_FargateService_keeps in R7
    as (-> & Hfs & Hk5 & Hfsg & c & net & sns & Hc & Hnet & -> & Hne & Hsvc & Hsg).
  rewrite (proj2 K24 _ _ (not_elem_of_nil _) Hcl) in Hc. injection Hc as <-.
  simpl in Hnet, Hsg.
  pose proof (keeps_step _ _ _ _ K14 Hk5) as K15.
  next H R8. read_field R8.
  next H R9. read_field R9.
  unfold registerLoadBalancerTargets in H. simpl in H.
  next H R10. eapply ListenerConfig_addTargets_keeps in R10 as (f1 & Hf1 & Hk6);
    [|reflexivity..].
  rewrite Hsvc in Hf1. injection Hf1 as <-. simpl in Hk6.
  next H R11. eapply ListenerConfig_addTargets_keeps in R11 as (f2 & Hf2 & Hk7);
    [|reflexivity..].
  assert (Hother : "ECSService" ∉ ["ECSService" +:+ "/" +:+ "SecurityGroup"])
    by (apply (bool_decide_unpack _); by vm_compute).
  rewrite (proj2 Hk6 _ _ Hother Hsvc) in Hf2.
  injection Hf2 as <-. simpl in Hk7.
  apply ret_Done in H as [_ ->].
  pose proof (keeps_step _ _ _ _ Hk6 Hk7) as K67.
  pose proof (keeps_step _ _ _ _ (keeps_more _ _ _ K15) K67) as K17.
  change ("ECSCluster" +:+ "/" +:+ "Vpc") with "ECSCluster/Vpc" in *.
  change ("ECSService" +:+ "/" +:+ "SecurityGroup") with "ECSService/SecurityGroup" in *.
  assert (Hfsg0 : child "ECSService/SecurityGroup" s = None)
    by exact (keeps_None _ _ _ _ K14 Hfsg).
  assert (Hlater : forall p c, child p s4 = Some c ->
            p <> "ECSService/SecurityGroup" -> child p s6 = Some c).
  { intros p c0 Hp Hne'. destruct K67 as [_ K]. apply K; [|exact Hp].
    intros Hin. by apply list_elem_of_singleton in Hin. }
  split; [eauto|]. split; [exact Hf|]. split.
  { apply (keeps_fresh _ _ _ K17). intros q Hq. by each_member Hq. }
  exists net. eexists. split_and!.
  - apply Hlater; [|apply (bool_decide_unpack _); by vm_compute].
    destruct Hk5 as [_ K5]. apply K5; [apply not_elem_of_nil|].
    destruct K24 as [_ K]. by apply K; [apply not_elem_of_nil|].
  - apply Hlater; [destruct Hk5 as [_ K5]; by apply K5; [apply not_elem_of_nil|]|].
    intros Heq. rewrite Heq in Hnet. congruence.
  - apply Hlater; [exact Hsvc|]. apply (bool_decide_unpack _). by vm_compute.
  - reflexivity.
  - reflexivity.
  - exact Hne.
  - intros Hnone. destruct (Hown Hnone) as (Hfv & net' & Hnet' & Hazs & Hnat & Hsubs).
    rewrite Hnone in Hnet. simpl in Hnet.
    rewrite (proj2 K24 _ _ (not_elem_of_nil _) Hnet') in Hnet. injection Hnet as <-.
    done.
Qed.

Lemma setupApiGatewayVpcLink_tree (s s' : Stack) (u : unit) :
  setupApiGatewayVpcLink s = Done u s' ->
  is_Some (vpc s) /\ is_Some (internalAlbListener s) /\
  child "HttpVpcLink" s = None /\ is_Some (child "HttpVpcLink" s') /\ keeps [] s s'.
Proof.
  intros H. pose proof (setupApiGatewayVpcLink_effect _ _ _ H) as (_ & l & Hl).
  unfold setupApiGatewayVpcLink in H.
  next H R1. read_field R1.
  next H R2. apply selectSubnets_Done in R2 as ->.
  next H R3. read_field R3.
  next H R4. apply new_VpcLink_keeps in R4 as (-> & Hf & Hc & Hk1).
  next H R5. unfold new_HttpApi in R5. apply addChild_keeps in R5 as (-> & _ & _ & Hk2).
  next H R6. read_field R6.
  next H R7. apply new_HttpRoute_keeps in R7 as (-> & _ & Hk3).
  apply ret_Done in H as [_ ->].
  pose proof (keeps_trans _ _ _ _ _ Hk2 Hk3) as K23.
  pose proof (keeps_trans _ _ _ _ _ Hk1 K23) as K13. simpl in K23, K13.
  split; [eauto|]. split; [eauto|]. split; [exact Hf|]. split; [|exact K13].
  destruct K23 as [S _]. by apply (S _ _ Hc).
Qed.

(** *** What every method needs and leaves *)

Lemma call_facts (m : Method) (s s' : Stack) (u : unit) :
  call m s = Done u s' ->
  child (marker m) s = None /\
  is_Some (child (marker m) s') /\
  keeps [] s s' /\
  (m <> SetupVpc -> m <> SetupEcsService -> is_Some (vpc s)) /\
  (m = SetupEcsService \/ m = SetupApiGatewayVpcLink -> is_Some (internalAlbListener s)) /\
  (is_Some (vpc s') -> is_Some (vpc s) \/ m = SetupVpc) /\
  (is_Some (internalAlbListener s') -> is_Some (internalAlbListener s) \/ m = SetupAlb).
Proof.
  intros H. destruct m; simpl in H |- *.
  - pose proof (setupVpc_effect _ _ _ H) as (_ & _ & Hl).
    apply setupVpc_tree in H as (Hf & [net Hnet] & Hk).
    split_and!; [done|eauto|done|done|intros [?|?]; discriminate|by right|].
    rewrite Hl. by left.
  - pose proof (setupAlb_effect _ _ _ H) as (_ & Hv & _).
    apply setupAlb_tree in H as (v & Hvs & Hf & Hk & Hsg & _).
    split_and!; [done|eauto|done|eauto|intros [?|?]; discriminate| |by right].
    rewrite Hv. by left.
  - pose proof (setupVpcEndpointsForEcr_effect _ _ _ H) as (v' & _ & _ & Hv & _ & Hl).
    apply setupVpcEndpointsForEcr_tree in H as (v & net & Hvs & _ & _ & Hf & Hk & Hsg).
    split_and!; [done|eauto|done|eauto|intros [?|?]; discriminate| | ].
    + rewrite Hv. by left.
    + rewrite Hl. by left.
  - pose proof (setupEcsService_effect _ _ _ H) as (l & _ & _ & Hv & _ & Hl).
    apply setupEcsService_tree in H as (Hls & Hf & Hk & net & f & Hc & _).
    split_and!; [done|eauto|done|done|done| | ].
    + rewrite Hv. by left.
    + rewrite Hl. by left.
  - pose proof (setupApiGatewayVpcLink_effect _ _ _ H) as ((_ & Hv & _ & Hl) & _).
    apply setupApiGatewayVpcLink_tree in H as (Hvs & Hls & Hf & Hc & Hk).
    split_and!; [done|done|done|done|done| | ].
    + rewrite Hv. by left.
    + rewrite Hl. by left.
Qed.

Lemma callAll_keeps (ms : list Method) (s s' : Stack) (u : unit) :
  callAll ms s = Done u s' -> keeps [] s s'.
Proof.
  unfold callAll. revert s. induction ms as [|m ms IH]; intros s H; simpl in H.
  - apply ret_Done in H as [_ ->]. by apply keeps_same.
  - next H R. apply call_facts in R as (_ & _ & Hk & _).
    apply (keeps_trans _ _ _ _ _ Hk (IH _ H)).
Qed.

Lemma callAll_admissible (ms called : list Method) (s s' : Stack) (u : unit) :
  reached called s -> callAll ms s = Done u s' -> admissibleAfter called ms = true.
Proof.
  unfold callAll. revert called s. induction ms as [|m ms IH]; intros called s Hr H; [done|].
  simpl in H |- *. next H R.
  pose proof (call_facts _ _ _ _ R) as (Hf & Hc & Hk & Hv & Hl & Hv' & Hl').
  destruct Hr as (Hmark & Hvd & Hld & Hav).
  apply andb_true_intro. split.
  - unfold allowed. apply andb_true_intro. split.
    + apply bool_decide_eq_true_2. intros Hin. apply Hmark in Hin as [c Hin]. congruence.
    + apply forallb_forall. intros r Hr. apply bool_decide_eq_true_2.
      apply list_elem_of_In in Hr.
      destruct m; simpl in Hr; each_member Hr;
        first [ apply Hvd; apply Hv; discriminate
              | apply Hld; apply Hl; eauto
              | apply Hav; apply Hld; apply Hl; eauto ].
  - apply (IH (m :: called) s0); [|done]. split; [|split; [|split]].
    + intros m' Hm'. apply elem_of_cons in Hm' as [->|Hm']; [done|].
      destruct (Hmark m' Hm') as [c Hc']. destruct Hk as [S _]. by apply (S _ c).
    + intros Hs. destruct (Hv' Hs) as [Hs'| ->]; [right; by apply Hvd|by left].
    + intros Hs. destruct (Hl' Hs) as [Hs'| ->]; [right; by apply Hld|by left].
    + intros Hs. apply elem_of_cons in Hs as [Hs|Hs].
      * right. apply Hvd. apply Hv; by rewrite <- Hs.
      * right. by apply Hav.
Qed.

Lemma reached_super (id : string) (props : StackProps) : reached [] (super id props).
Proof.
  split; [|split; [|split]]; simpl.
  - intros m Hm. by apply elem_of_nil in Hm.
  - by intros [? ?].
  - by intros [? ?].
  - intros Hm. by apply elem_of_nil in Hm.
Qed.

Ltac orders H ms :=
  destruct ms as [|? ms];
  [ eexists; run; reflexivity
  | match goal with m : Method |- _ => destruct m end;
    vm_compute in H; try discriminate H; orders H ms ].

Lemma admissible_returns (id : string) (props : StackProps) (ms : list Method) :
  zones (env props) <> [] ->
  admissible ms = true ->
  exists st, callAll ms (super id props) = Done tt st.
Proof.
  intros Hz H. unfold admissible in H. split_zones props; orders H ms.
Qed.

(** [admissibleAfter] in plain terms. *)
Lemma admissibleAfter_plain (called ms : list Method) :
  admissibleAfter called ms = true <->
  NoDup ms /\
  (forall m, m ∈ ms -> m ∉ called) /\
  (forall i m r, ms !! i = Some m -> r ∈ requires m ->
     r ∈ called \/ exists j, (j < i)%nat /\ ms !! j = Some r).
Proof.
  revert called. induction ms as [|m ms IH]; intros called; simpl.
  - split; [intros _|done]. split; [constructor|]. split.
    + intros m Hm. by apply elem_of_nil in Hm.
    + intros i m r Hi. by rewrite lookup_nil in Hi.
  - rewrite andb_true_iff, IH. unfold allowed.
    rewrite andb_true_iff, bool_decide_eq_true, forallb_forall. split.
    + intros [[Hfresh Hreq] (Hnd & Hnot & Hord)]. split_and!.
      * apply NoDup_cons. split; [|done]. intros Hin. apply (Hnot m Hin). by left.
      * intros m' Hm'. apply elem_of_cons in Hm' as [->|Hm']; [done|].
        intros Hc. apply (Hnot m' Hm'). by right.
      * intros [|i] m' r Hi Hr; simpl in Hi.
        -- simplify_eq. left. apply list_elem_of_In in Hr.
           exact (bool_decide_eq_true_1 _ (Hreq r Hr)).
        -- destruct (Hord i m' r Hi Hr) as [Hc|(j & Hj & Hjr)].
           ++ apply elem_of_cons in Hc as [->|Hc]; [|by left].
              right. exists 0%nat. split; [lia|done].
           ++ right. exists (S j). split; [lia|done].
    + intros (Hnd & Hnot & Hord). apply NoDup_cons in Hnd as [Hm Hnd]. split_and!.
      * apply Hnot. by left.
      * intros r Hr. apply bool_decide_eq_true_2. apply list_elem_of_In in Hr.
        destruct (Hord 0%nat m r eq_refl Hr) as [Hc|(j & Hj & _)]; [done|lia].
      * done.
      * intros m' Hm' Hc. apply elem_of_cons in Hc as [->|Hc]; [done|].
        apply (Hnot m'); [by right|done].
      * intros i m' r Hi Hr. destruct (Hord (S i) m' r Hi Hr) as [Hc|(j & Hj & Hjr)].
        -- left. by right.
        -- destruct j as [|j]; simpl in Hjr.
           ++ simplify_eq. left. by left.
           ++ right. exists j. split; [lia|done].
Qed.

(** X1. Which orders of calls work.  In an environment that offers a zone,
    a sequence of calls of the class's methods on a fresh stack returns
    exactly when no method is called twice and every call comes after the
    calls it requires: [setupVpc] before every other method, [setupAlb]
    before [setupEcsService] and before [setupApiGatewayVpcLink].  Every
    other sequence throws. *)
Theorem call_orders (id : string) (props : StackProps) (ms : list Method) :
  zones (env props) <> [] ->
  (exists st, callAll ms (super id props) = Done tt st) <->
  NoDup ms /\
  (forall i m r, ms !! i = Some m -> r ∈ requires m ->
     exists j, (j < i)%nat /\ ms !! j = Some r).
Proof.
  intros Hz.
  assert (Hplain : admissible ms = true <->
            NoDup ms /\
            (forall i m r, ms !! i = Some m -> r ∈ requires m ->
               exists j, (j < i)%nat /\ ms !! j = Some r)).
  { unfold admissible. rewrite admissibleAfter_plain. split.
    - intros (Hnd & _ & Hord). split; [done|]. intros i m r Hi Hr.
      destruct (Hord i m r Hi Hr) as [Hc|Hj]; [by apply elem_of_nil in Hc|done].
    - intros (Hnd & Hord). split_and!; [done| |].
      + intros m _. apply not_elem_of_nil.
      + intros i m r Hi Hr. right. by apply (Hord i m r). }
  rewrite <- Hplain. split.
  - intros [st H]. apply (callAll_admissible ms [] _ _ _ (reached_super id props) H).
  - by apply admissible_returns.
Qed.


(** X2. The methods only add to the tree.  Whatever methods are called on
    whatever stack, a construct that was there before the calls is there
    after them, unchanged. *)
Theorem constructs_are_kept (ms : list Method) (s s' : Stack) (p : string) (c : Construct) :
  callAll ms s = Done tt s' ->
  child p s = Some c ->
  child p s' = Some c.
Proof.
  intros H Hp. apply callAll_keeps in H as [_ K].
  apply (K p c); [apply not_elem_of_nil|done].
Qed.

(** X3. What [setupAlb] leaves, on any stack on which it returns and after
    any further calls: the load balancer's security group belongs to the
    network of [this.vpc] and admits TCP 80 from any address and nothing
    else, and the listener stands on port 80 of the load balancer with the
    fixed response 200 "No routes defined" as its default action.  No
    later method replaces the default action or touches the group. *)
Theorem setupAlb_result_persists (ms : list Method) (s s1 s' : Stack) :
  setupAlb s = Done tt s1 ->
  callAll ms s1 = Done tt s' ->
  exists v,
    vpc s = Some v /\
    child "InternalAlbSg" s = None /\
    child "InternalAlbSg" s' =
      Some (CSecurityGroup
              (mkSecurityGroup v [mkIngressRule Peer.anyIpv4 (Port.tcp 80)])) /\
    child theListener s' =
      Some (CApplicationListener (mkApplicationListener "InternalAlb" 80 (Some fallback))) /\
    listenerDefaultAction theListener s' = Some fallback.
Proof.
  intros Halb Hms.
  apply setupAlb_tree in Halb as (v & Hv & Hf & _ & Hsg & Hl).
  apply callAll_keeps in Hms as [_ K].
  apply (K _ _ (not_elem_of_nil _)) in Hsg. apply (K _ _ (not_elem_of_nil _)) in Hl.
  exists v. split_and!; try done. unfold listenerDefaultAction. by rewrite Hl.
Qed.

Lemma endpointGroup_rules (v : string) (net : Vpc) (r : IngressRule) :
  r ∈ ingressRules (endpointGroup v net) <->
  (exists sn, sn ∈ subnets net /\ subnetType sn = SubnetType.PRIVATE_ISOLATED /\
              r = mkIngressRule (Peer.ipv4 (ipv4CidrBlock sn)) (Port.tcp 443)) \/
  r = mkIngressRule (Peer.ipv4 (vpcCidrBlock net)) (Port.tcp 443).
Proof.
  unfold endpointGroup, networkRule. rewrite addIngressRule_rules, allowHttpsFrom_rules.
  simpl. split.
  - intros [[H|(sn & Hin & ->)]| ->]; [by apply elem_of_nil in H| |by right].
    apply list_elem_of_filter in Hin as [Ht Hin]. left. by exists sn.
  - intros [(sn & Hin & Ht & ->)| ->]; [|by right].
    left. right. exists sn. split; [|done]. by apply list_elem_of_filter.
Qed.

Lemma endpointGroup_NoDup (v : string) (net : Vpc) :
  NoDup (ingressRules (endpointGroup v net)).
Proof. apply addIngressRule_NoDup, allowHttpsFrom_NoDup. constructor. Qed.

Lemma allowHttpsFrom_sgVpc (sns : list Subnet) (g : SecurityGroup) :
  sgVpc (allowHttpsFrom sns g) = sgVpc g.
Proof.
  induction sns as [|sn sns IH] using rev_ind; [done|].
  unfold allowHttpsFrom in *. rewrite foldl_snoc.
  unfold SecurityGroup_addIngressRule at 1. by case_decide.
Qed.

Lemma endpointGroup_sgVpc (v : string) (net : Vpc) : sgVpc (endpointGroup v net) = v.
Proof.
  unfold endpointGroup, SecurityGroup_addIngressRule at 1.
  case_decide; simpl; by rewrite allowHttpsFrom_sgVpc.
Qed.

(** X4. The endpoints' security group follows the network.  On any stack
    on which [setupVpcEndpointsForEcr] returns, [this.vpc] leads to a
    network with at least one isolated subnet, and after the call and any
    further calls the group admits TCP 443 from the blocks of the isolated
    subnets of that network and from the address range of the network as a
    whole, from nothing else and from each once, while the network itself
    is unchanged. *)
Theorem endpoint_group_follows_network (ms : list Method) (s s1 s' : Stack) :
  setupVpcEndpointsForEcr s = Done tt s1 ->
  callAll ms s1 = Done tt s' ->
  exists v net g,
    vpc s = Some v /\
    child v s = Some (CVpc net) /\
    child v s' = Some (CVpc net) /\
    subnetsOfType SubnetType.PRIVATE_ISOLATED net <> [] /\
    child "InterfaceEndpointSecurityGroup" s' = Some (CSecurityGroup g) /\
    sgVpc g = v /\
    NoDup (ingressRules g) /\
    (forall r, r ∈ ingressRules g <->
       (exists sn, sn ∈ subnets net /\ subnetType sn = SubnetType.PRIVATE_ISOLATED /\
                   r = mkIngressRule (Peer.ipv4 (ipv4CidrBlock sn)) (Port.tcp 443)) \/
       r = mkIngressRule (Peer.ipv4 (vpcCidrBlock net)) (Port.tcp 443)).
Proof.
  intros Hep Hms.
  apply setupVpcEndpointsForEcr_tree in Hep as (v & net & Hv & Hnet & Hne & _ & [_ K1] & Hsg).
  apply callAll_keeps in Hms as [_ K].
  pose proof (K _ _ (not_elem_of_nil _) (K1 _ _ (not_elem_of_nil _) Hnet)) as Hnet'.
  apply (K _ _ (not_elem_of_nil _)) in Hsg.
  exists v, net, (endpointGroup v net). split_and!; try done.
  - apply endpointGroup_sgVpc.
  - apply endpointGroup_NoDup.
  - apply endpointGroup_rules.
Qed.


(** *** The subnets of a network, group by group *)

Lemma subnet_row_filter (t t' : SubnetType.t) (c : nat -> string) (azs : list string) :
  filter (fun sn => subnetType sn = t')
         (imap (fun i az => mkSubnet t az (c i) (routeOf t)) azs) =
  if decide (t = t') then imap (fun i az => mkSubnet t az (c i) (routeOf t)) azs else [].
Proof.
  revert c. induction azs as [|az azs IH]; intros c; [by case_decide|].
  rewrite imap_cons, filter_cons. simpl.
  specialize (IH (c ∘ S)). unfold compose in IH |- *.
  rewrite IH. by repeat case_decide.
Qed.

Lemma subnet_row_zones (t : SubnetType.t) (c : nat -> string) (azs : list string) :
  availabilityZone <$> imap (fun i az => mkSubnet t az (c i) (routeOf t)) azs = azs.
Proof.
  revert c. induction azs as [|az azs IH]; intros c; [done|].
  rewrite imap_cons, fmap_cons. simpl. f_equal. apply (IH (c ∘ S)).
Qed.

Lemma subnet_row_route (t : SubnetType.t) (c : nat -> string) (azs : list string) :
  Forall (fun sn => defaultRoute sn = routeOf t)
         (imap (fun i az => mkSubnet t az (c i) (routeOf t)) azs).
Proof.
  revert c. induction azs as [|az azs IH]; intros c; [constructor|].
  rewrite imap_cons. constructor; [done|]. apply (IH (c ∘ S)).
Qed.

(** The private subnets of a network with a public and a private group:
    one for each zone, in the order of the zones, routed through a NAT
    gateway. *)
Lemma private_subnets (net : Vpc) :
  subnets net =
    createSubnets [SubnetType.PUBLIC; SubnetType.PRIVATE_WITH_EGRESS] (availabilityZones net) ->
  availabilityZone <$> subnetsOfType SubnetType.PRIVATE_WITH_EGRESS net = availabilityZones net /\
  Forall (fun sn => defaultRoute sn = Some NatGateway)
         (subnetsOfType SubnetType.PRIVATE_WITH_EGRESS net) /\
  (availabilityZones net <> [] -> defaultSubnetType net = SubnetType.PRIVATE_WITH_EGRESS) /\
  (availabilityZones net = [] -> subnets net = []).
Proof.
  intros Hsubs.
  assert (Hrow : subnetsOfType SubnetType.PRIVATE_WITH_EGRESS net =
                 imap (fun i az =>
                         mkSubnet SubnetType.PRIVATE_WITH_EGRESS az
                           (allocateCidr (2 * length (availabilityZones net))
                              (1 * length (availabilityZones net) + i))
                           (routeOf SubnetType.PRIVATE_WITH_EGRESS))
                      (availabilityZones net)).
  { unfold subnetsOfType. rewrite Hsubs. unfold createSubnets. simpl.
    rewrite app_nil_r, filter_app, !subnet_row_filter.
    rewrite decide_False by done. by rewrite decide_True. }
  split_and!.
  - rewrite Hrow. apply subnet_row_zones.
  - rewrite Hrow. apply (subnet_row_route SubnetType.PRIVATE_WITH_EGRESS).
  - intros Hne. unfold defaultSubnetType. rewrite Hrow.
    destruct (availabilityZones net); [done|]. by rewrite imap_cons.
  - intros Hnil. rewrite Hsubs, Hnil. reflexivity.
Qed.

(** X10. [setupEcsService] does not need [this.vpc].  On any stack with the
    field unset on which the method returns, the cluster has built a
    network of its own below itself, over the first two zones of the
    environment with a NAT gateway for each; the service is in the private
    subnets of that network, one for each zone, which have their way out
    through those gateways; and the field is still unset. *)
Theorem cluster_builds_its_own_network (s s' : Stack) :
  vpc s = None ->
  setupEcsService s = Done tt s' ->
  child "ECSCluster/Vpc" s = None /\
  vpc s' = None /\
  exists net f,
    child "ECSCluster" s' = Some (CCluster (mkCluster "SampleApi" "ECSCluster/Vpc")) /\
    child "ECSCluster/Vpc" s' = Some (CVpc net) /\
    availabilityZones net = take 2 (zones (env (stackProps s))) /\
    availabilityZones net <> [] /\
    natGateways net = length (availabilityZones net) /\
    child "ECSService" s' = Some (CFargateService f) /\
    cluster f = "ECSCluster" /\
    serviceSubnets f = subnetsOfType SubnetType.PRIVATE_WITH_EGRESS net /\
    availabilityZone <$> serviceSubnets f = availabilityZones net /\
    Forall (fun sn => defaultRoute sn = Some NatGateway) (serviceSubnets f).
Proof.
  intros Hv H.
  pose proof (setupEcsService_effect _ _ _ H) as (l & _ & _ & Hv' & _).
  apply setupEcsService_tree in H
    as (_ & _ & _ & net & f & Hcl & Hnet & Hsvc & Hc & Hsns & Hne & Hown).
  rewrite Hv in Hcl, Hnet. simpl in Hcl, Hnet.
  destruct (Hown Hv) as (Hfresh & Hazs & Hnat & Hsubs).
  destruct (private_subnets net Hsubs) as (Hz & Hroute & Hdefault & Hnone).
  assert (Hzones : availabilityZones net <> []).
  { intros Hnil. apply Hne. rewrite Hsns. unfold subnetsOfType.
    by rewrite (Hnone Hnil). }
  rewrite (Hdefault Hzones) in Hsns.
  split; [done|]. split; [by rewrite Hv'|].
  exists net, f. rewrite Hsns. by split_and!.
Qed.

(** *** The constructed fabric *)

(** X6. Which services the endpoints name.  The log and the storage
    endpoint name the services of the region the stack is deployed to.
    The two registry endpoints name the services of us-east-1, wherever
    the stack is deployed: they are those of the stack's region exactly
    when the stack is deployed to us-east-1. *)
Theorem endpoint_services_and_region (id : string) (props : StackProps) :
  zones (env props) <> [] ->
  exists st dkr api logs s3,
    constructor id props = Done tt st /\
    child "VPC/EcrInterfaceEndpointDkr" st = Some (CInterfaceVpcEndpoint dkr) /\
    child "VPC/EcrInterfaceEndpointApi" st = Some (CInterfaceVpcEndpoint api) /\
    child "VPC/CloudWatchInterfaceEndpoint" st = Some (CInterfaceVpcEndpoint logs) /\
    child "VPC/S3GatewayEndpoint" st = Some (CGatewayVpcEndpoint s3) /\
    serviceName (ifaceService logs) = "com.amazonaws." +:+ region (env props) +:+ ".logs" /\
    serviceName (gwService s3) = "com.amazonaws." +:+ region (env props) +:+ ".s3" /\
    serviceName (ifaceService dkr) = "com.amazonaws.us-east-1.ecr.dkr" /\
    serviceName (ifaceService api) = "com.amazonaws.us-east-1.ecr.api" /\
    (serviceName (ifaceService dkr) = "com.amazonaws." +:+ region (env props) +:+ ".ecr.dkr"
     <-> region (env props) = "us-east-1") /\
    (serviceName (ifaceService api) = "com.amazonaws." +:+ region (env props) +:+ ".ecr.api"
     <-> region (env props) = "us-east-1").
Proof.
  intros Hz.
  assert (Hpin : forall r suffix,
            "com.amazonaws.us-east-1" +:+ suffix = "com.amazonaws." +:+ r +:+ suffix
            <-> r = "us-east-1").
  { intros r suffix. split; [|by intros ->].
    intros H. simpl in H. simplify_eq.
    symmetry. apply (string_app_inv_tail _ _ suffix). by simpl. }
  split_zones props.
  - eexists _, _, _, _, _. split; [run; reflexivity|].
    do 4 (split; [run; reflexivity|]). do 4 (split; [reflexivity|]).
    split; [apply (Hpin _ ".ecr.dkr")|apply (Hpin _ ".ecr.api")].
  - eexists _, _, _, _, _. split; [run; reflexivity|].
    do 4 (split; [run; reflexivity|]). do 4 (split; [reflexivity|]).
    split; [apply (Hpin _ ".ecr.dkr")|apply (Hpin _ ".ecr.api")].
Qed.

(** X7. Where the constructs go.  The load balancer, the service, the
    three interface endpoints, the gateway endpoint and the VPC link all
    get the same subnets: the isolated subnets of the network, one for each
    of the first two zones of the environment, in that order.  The
    interface endpoints serve port 443 with private DNS, behind the
    endpoints' security group. *)
Theorem one_subnet_list_for_all (id : string) (props : StackProps) :
  zones (env props) <> [] ->
  exists st net b f dkr api logs s3 k,
    constructor id props = Done tt st /\
    child "VPC" st = Some (CVpc net) /\
    child "InternalAlb" st = Some (CApplicationLoadBalancer b) /\
    child "ECSService" st = Some (CFargateService f) /\
    child "VPC/EcrInterfaceEndpointDkr" st = Some (CInterfaceVpcEndpoint dkr) /\
    child "VPC/EcrInterfaceEndpointApi" st = Some (CInterfaceVpcEndpoint api) /\
    child "VPC/CloudWatchInterfaceEndpoint" st = Some (CInterfaceVpcEndpoint logs) /\
    child "VPC/S3GatewayEndpoint" st = Some (CGatewayVpcEndpoint s3) /\
    child "HttpVpcLink" st = Some (CVpcLink k) /\
    albSubnets b = subnetsOfType SubnetType.PRIVATE_ISOLATED net /\
    serviceSubnets f = subnetsOfType SubnetType.PRIVATE_ISOLATED net /\
    Forall (fun e => ifaceSubnets e = subnetsOfType SubnetType.PRIVATE_ISOLATED net /\
                     servicePort (ifaceService e) = 443%nat /\
                     privateDnsEnabled e = true /\
                     ifaceSecurityGroups e = ["InterfaceEndpointSecurityGroup"])
           [dkr; api; logs] /\
    interfaceEndpoints st = [dkr; api; logs] /\
    gwSubnets s3 = [subnetsOfType SubnetType.PRIVATE_ISOLATED net] /\
    linkSubnets k = subnetsOfType SubnetType.PRIVATE_ISOLATED net /\
    availabilityZone <$> subnetsOfType SubnetType.PRIVATE_ISOLATED net =
      take 2 (zones (env props)).
Proof.
  intros Hz. split_zones props.
  - eexists _, _, _, _, _, _, _, _, _. split; [run; reflexivity|].
    do 8 (split; [run; reflexivity|]).
    split_and!; try reflexivity. repeat constructor.
  - eexists _, _, _, _, _, _, _, _, _. split; [run; reflexivity|].
    do 8 (split; [run; reflexivity|]).
    split_and!; try reflexivity. repeat constructor.
Qed.

(** X8. An environment without zones.  There [setupVpc] returns, with a
    network that has no subnet; [setupAlb] then throws, because there is
    no isolated subnet for the load balancer; and so does the constructor. *)
Theorem no_zone_no_load_balancer (id : string) (props : StackProps) :
  zones (env props) = [] ->
  exists s1 net msg,
    setupVpc (super id props) = Done tt s1 /\
    child "VPC" s1 = Some (CVpc net) /\
    subnets net = [] /\
    setupAlb s1 = Thrown (ConstructError msg) /\
    constructor id props = Thrown (ConstructError msg).
Proof.
  destruct props as [n d [r zs]]. simpl. intros ->.
  eexists _, _, _. split; [run; reflexivity|].
  split; [run; reflexivity|]. split; [reflexivity|].
  split; run; reflexivity.
Qed.

(** X9. The path of a request agrees on its port.  The load balancer's
    security group admits TCP 80, the listener stands on port 80, both
    target groups speak HTTP on port 80 and have the service's container
    SampleApi as their only target at port 80, which is the port that the
    container maps. *)
Theorem one_port_along_the_path (id : string) (props : StackProps) :
  zones (env props) <> [] ->
  exists st g lst gA gB c,
    constructor id props = Done tt st /\
    child "InternalAlbSg" st = Some (CSecurityGroup g) /\
    child theListener st = Some (CApplicationListener lst) /\
    child targetGroupA st = Some (CApplicationTargetGroup gA) /\
    child targetGroupB st = Some (CApplicationTargetGroup gB) /\
    child "EcsTaskDefinition/SampleApi" st = Some (CContainerDefinition c) /\
    ruleConnection <$> ingressRules g = [Port.tcp (listenerPort lst)] /\
    listenerPort lst = 80%nat /\
    Forall (fun t => tgProtocol t = Some ApplicationProtocol.HTTP /\
                     tgPort t = listenerPort lst /\
                     targets t = [mkLoadBalancerTarget "ECSService" (containerName c)
                                    (tgPort t)])
           [gA; gB] /\
    containerPort <$> portMappings c = [listenerPort lst].
Proof.
  intros Hz. split_zones props.
  - eexists _, _, _, _, _, _. split; [run; reflexivity|].
    do 5 (split; [run; reflexivity|]).
    split_and!; try reflexivity. repeat constructor.
  - eexists _, _, _, _, _, _. split; [run; reflexivity|].
    do 5 (split; [run; reflexivity|]).
    split_and!; try reflexivity. repeat constructor.
Qed.

End Topology.

(** ** The theorems at sample deployments *)

Lemma listener_rule_set_virginia :
  zones (env virginia) <> [] /\
  exists st,
    constructor evenSplit "Stack" virginia = Done tt st /\
    priority <$> listenerRules "InternalAlb/InternalHttpListener" st = [1%Z; 2%Z] /\
    listenerDefaultAction "InternalAlb/InternalHttpListener" st =
      Some (ListenerAction.fixedResponse 200 "No routes defined").
Proof.
  assert (Hz : zones (env virginia) <> []) by discriminate.
  split; [exact Hz|].
  destruct (listener_rule_set evenSplit "Stack" virginia Hz)
    as (st & l & gA & gB & Hrun & Hl & Hrules & _ & _ & _ & _ & Hdef).
  exists st. split; [exact Hrun|].
  vm_compute in Hrun. injection Hrun as <-.
  injection Hl as <-. split; [by rewrite Hrules | exact Hdef].
Defined.

Lemma rule_evaluation_virginia :
  zones (env virginia) <> [] /\
  exists st,
    constructor evenSplit "Stack" virginia = Done tt st /\
    evaluate exactMatch "InternalAlb/InternalHttpListener" st "/customers" =
      Some (ListenerAction.forward [targetGroupB]) /\
    evaluate exactMatch "InternalAlb/InternalHttpListener" st "/" =
      Some (ListenerAction.forward [targetGroupA]) /\
    evaluate exactMatch "InternalAlb/InternalHttpListener" st "/health" =
      Some (ListenerAction.fixedResponse 200 "No routes defined").
Proof.
  assert (Hz : zones (env virginia) <> []) by discriminate.
  split; [exact Hz|].
  destruct (rule_evaluation evenSplit exactMatch "Stack" virginia Hz)
    as (st & l & Hrun & Hl & _ & Hev).
  exists st. split; [exact Hrun|].
  vm_compute in Hrun. injection Hrun as <-. injection Hl as <-.
  split; [|split].
  - apply (Hev "/customers"); [reflexivity|].
    intros r Hr Hlt. vm_compute in Hr. each_member Hr; [reflexivity|].
    vm_compute in Hlt. discriminate.
  - apply (Hev "/"); [reflexivity|].
    intros r Hr Hlt. vm_compute in Hr. each_member Hr; vm_compute in Hlt; discriminate.
  - apply (Hev "/health").
    intros r Hr. vm_compute in Hr. each_member Hr; reflexivity.
Defined.

Lemma isolated_placement_virginia :
  zones (env virginia) <> [] /\
  exists st f,
    constructor evenSplit "Stack" virginia = Done tt st /\
    child "ECSService" st = Some (CFargateService f) /\
    assignPublicIp f = false /\
    Forall (fun sn => subnetType sn = SubnetType.PRIVATE_ISOLATED /\ defaultRoute sn = None)
           (serviceSubnets f).
Proof.
  assert (Hz : zones (env virginia) <> []) by discriminate.
  split; [exact Hz|].
  destruct (isolated_placement evenSplit "Stack" virginia Hz)
    as (st & v & b & f & Hrun & _ & _ & _ & _ & Hf & _ & _ & _ & _ & _ & Hip & _ & Hsn & Hroute).
  exists st, f. split; [exact Hrun|]. split; [exact Hf|]. split; [exact Hip|].
  apply Forall_forall. intros sn Hin. destruct (Hsn sn Hin) as [Hv Ht].
  split; [exact Ht|]. by apply Hroute.
Defined.

Lemma single_proxy_route_virginia :
  zones (env virginia) <> [] /\
  exists st,
    constructor evenSplit "Stack" virginia = Done tt st /\
    (HttpRouteKey.routePath ∘ routeKey) <$> routes st = ["/{proxy+}"].
Proof.
  assert (Hz : zones (env virginia) <> []) by discriminate.
  split; [exact Hz|].
  destruct (single_proxy_route evenSplit "Stack" virginia Hz)
    as (st & l & a & k & api & Hrun & _ & Hroutes & _).
  exists st. split; [exact Hrun|]. by rewrite Hroutes.
Defined.

Lemma listener_before_bridge_virginia :
  zones (env virginia) <> [] /\
  exists st,
    constructor evenSplit "Stack" virginia = Done tt st /\
    Forall (fun b => exists i, history st !! i = Some b /\
                               listenerReadyBefore (history st) i)
           bridgeEvents.
Proof.
  assert (Hz : zones (env virginia) <> []) by discriminate.
  split; [exact Hz|].
  destruct (listener_before_bridge evenSplit "Stack" virginia Hz)
    as ((st & Hrun & _ & _ & Hbuilt) & Hseq & Hany & _).
  exists st. split; [exact Hrun|].
  apply Forall_forall. intros b Hb.
  destruct (proj1 (list_elem_of_lookup _ _) (Hbuilt b Hb)) as [i Hi].
  exists i. split; [exact Hi|].
  rewrite Hseq in Hrun. exact (Hany _ _ Hrun i b Hb Hi).
Defined.

Lemma replicas_in_both_groups_virginia :
  zones (env virginia) <> [] /\
  exists st,
    constructor evenSplit "Stack" virginia = Done tt st /\
    length (replicas "ECSService" st) = 2%nat /\
    Forall (fun r => memberOf r targetGroupA st = true /\ memberOf r targetGroupB st = true)
           (replicas "ECSService" st).
Proof.
  assert (Hz : zones (env virginia) <> []) by discriminate.
  split; [exact Hz|].
  destruct (replicas_in_both_groups evenSplit "Stack" virginia Hz)
    as (st & v & f & c & gA & gB & Hrun & _ & _ & _ & _ & _ & _ & _ & Hlen & _ & _ & _ & Hall).
  exists st. split; [exact Hrun|]. split; [exact Hlen|].
  apply Forall_forall. intros r Hr.
  destruct (Hall r Hr) as (_ & _ & HA & HB). split; assumption.
Defined.



(** ** Where the specification and the code part *)

(** C5.  At a deployment to us-east-1 with three zones on offer.  The
    security group of the load balancer admits TCP 80 from any address and
    nothing else, and the derivation loop yields TCP 443 from the blocks
    of the two isolated subnets, the same on every run.  But the group of
    the endpoints ends up with a third rule, which the interface endpoints
    add to it: TCP 443 from the whole address range of the network, public
    subnets included.  Its sources are not exactly the isolated blocks. *)
Theorem security_boundaries :
  exists st net gA gE,
    constructor evenSplit "Stack" virginia = Done tt st /\
    child "VPC" st = Some (CVpc net) /\
    child "InternalAlbSg" st = Some (CSecurityGroup gA) /\
    ingressRules gA = [mkIngressRule Peer.anyIpv4 (Port.tcp 80)] /\
    child "InterfaceEndpointSecurityGroup" st = Some (CSecurityGroup gE) /\
    ipv4CidrBlock <$> subnetsOfType SubnetType.PRIVATE_ISOLATED net =
      ["10.0.128.0/18"; "10.0.192.0/18"] /\
    ipv4CidrBlock <$> subnetsOfType SubnetType.PUBLIC net =
      ["10.0.0.0/18"; "10.0.64.0/18"] /\
    ingressRules
      (allowHttpsFrom (subnetsOfType SubnetType.PRIVATE_ISOLATED net)
         (mkSecurityGroup "VPC" [])) =
      [ mkIngressRule (Peer.ipv4 "10.0.128.0/18") (Port.tcp 443);
        mkIngressRule (Peer.ipv4 "10.0.192.0/18") (Port.tcp 443) ] /\
    allowHttpsFrom (subnetsOfType SubnetType.PRIVATE_ISOLATED net)
      (allowHttpsFrom (subnetsOfType SubnetType.PRIVATE_ISOLATED net)
         (mkSecurityGroup "VPC" [])) =
      allowHttpsFrom (subnetsOfType SubnetType.PRIVATE_ISOLATED net)
        (mkSecurityGroup "VPC" []) /\
    ingressRules gE =
      [ mkIngressRule (Peer.ipv4 "10.0.128.0/18") (Port.tcp 443);
        mkIngressRule (Peer.ipv4 "10.0.192.0/18") (Port.tcp 443);
        mkIngressRule (Peer.ipv4 "10.0.0.0/16") (Port.tcp 443) ] /\
    ~ (forall r, r ∈ ingressRules gE ->
         exists sn, sn ∈ subnetsOfType SubnetType.PRIVATE_ISOLATED net /\
                    r = mkIngressRule (Peer.ipv4 (ipv4CidrBlock sn)) (Port.tcp 443)).
Proof.
  eexists _, _, _, _. split; [vm_compute; reflexivity|].
  do 9 (split; [vm_compute; reflexivity|]).
  intros Hall.
  destruct (Hall (mkIngressRule (Peer.ipv4 "10.0.0.0/16") (Port.tcp 443)))
    as (sn & Hin & Heq).
  - apply (bool_decide_unpack _). by vm_compute.
  - vm_compute in Hin. each_member Hin; discriminate Heq.
Qed.


(** C8.  In an environment with one zone, short of the two that are asked
    for, the network is built over that zone and the construction of the
    whole stack goes through. *)
Lemma single_zone_network :
  (length (zones (env singleZone)) < 2)%nat /\
  exists st v st',
    setupVpc evenSplit (super "Stack" singleZone) = Done tt st /\
    child "VPC" st = Some (CVpc v) /\
    maxAzs v = 2%nat /\
    availabilityZones v = ["us-east-1a"] /\
    constructor evenSplit "Stack" singleZone = Done tt st'.
Proof.
  split; [simpl; lia|].
  eexists _, _, _. split; [vm_compute; reflexivity|].
  split; [vm_compute; reflexivity|].
  split; [reflexivity|]. split; [reflexivity|].
  vm_compute. reflexivity.
Qed.


(** ** The methods at sample deployments *)

Lemma call_orders_virginia :
  zones (env virginia) <> [] /\
  (exists st,
     callAll evenSplit
       [SetupVpc; SetupAlb; SetupEcsService; SetupApiGatewayVpcLink; SetupVpcEndpointsForEcr]
       (super "Stack" virginia) = Done tt st) /\
  ~ (exists st, callAll evenSplit [SetupAlb; SetupVpc] (super "Stack" virginia) = Done tt st).
Proof.
  assert (Hz : zones (env virginia) <> []) by discriminate.
  split; [exact Hz|]. split.
  - apply (call_orders evenSplit "Stack" virginia _ Hz). split.
    + apply (bool_decide_unpack _). by vm_compute.
    + intros i m r Hi Hr.
      do 5 (destruct i as [|i]; [simpl in Hi; injection Hi as <-; simpl in Hr; each_member Hr;
                                 first [ exists 0%nat; split; [lia|reflexivity]
                                       | exists 1%nat; split; [lia|reflexivity] ] |]).
      simpl in Hi. discriminate.
  - intros Hret. apply (call_orders evenSplit "Stack" virginia _ Hz) in Hret as [_ Hord].
    destruct (Hord 0%nat SetupAlb SetupVpc eq_refl) as (j & Hj & _); [|lia].
    simpl. by left.
Defined.

Lemma constructs_are_kept_virginia :
  exists s s' b,
    callAll evenSplit [SetupVpc; SetupAlb] (super "Stack" virginia) = Done tt s /\
    child "InternalAlb" s = Some (CApplicationLoadBalancer b) /\
    callAll evenSplit [SetupVpcEndpointsForEcr; SetupEcsService; SetupApiGatewayVpcLink] s
      = Done tt s' /\
    child "InternalAlb" s' = Some (CApplicationLoadBalancer b).
Proof.
  eexists _, _, _. split; [vm_compute; reflexivity|].
  split; [vm_compute; reflexivity|].
  match goal with
  | |- callAll _ ?ms ?s = Done tt _ /\ _ =>
      split;
      [ vm_compute; reflexivity
      | eapply (constructs_are_kept evenSplit ms s); vm_compute; reflexivity ]
  end.
Defined.

Ltac runs t H :=
  destruct t as [[] ?|?] eqn:H; [|vm_compute in H; discriminate H];
  let X := fresh in
  pose proof H as X; vm_compute in X; injection X as X; subst.

Lemma setupAlb_result_persists_virginia :
  exists s s1 s',
    setupVpc evenSplit (super "Stack" virginia) = Done tt s /\
    setupAlb s = Done tt s1 /\
    callAll evenSplit [SetupEcsService; SetupApiGatewayVpcLink] s1 = Done tt s' /\
    listenerDefaultAction theListener s' = Some fallback /\
    child "InternalAlbSg" s' =
      Some (CSecurityGroup
              (mkSecurityGroup "VPC" [mkIngressRule Peer.anyIpv4 (Port.tcp 80)])).
Proof.
  runs (setupVpc evenSplit (super "Stack" virginia)) Hvpc.
  match type of Hvpc with _ = Done tt ?s => runs (setupAlb s) Halb end.
  match type of Halb with
  | _ = Done tt ?s1 =>
      runs (callAll evenSplit [SetupEcsService; SetupApiGatewayVpcLink] s1) Hms
  end.
  eexists _, _, _. split; [reflexivity|]. split; [exact Halb|]. split; [exact Hms|].
  destruct (setupAlb_result_persists _ _ _ _ _ Halb Hms) as (v & Hv & _ & Hsg & _ & Hdef).
  split; [exact Hdef|]. simpl in Hv. injection Hv as <-. exact Hsg.
Defined.

Lemma endpoint_group_follows_network_virginia :
  exists s s1 s' g,
    setupVpc evenSplit (super "Stack" virginia) = Done tt s /\
    setupVpcEndpointsForEcr s = Done tt s1 /\
    callAll evenSplit [SetupAlb; SetupEcsService] s1 = Done tt s' /\
    child "InterfaceEndpointSecurityGroup" s' = Some (CSecurityGroup g) /\
    (forall r, r ∈ ingressRules g ->
       r = mkIngressRule (Peer.ipv4 "10.0.128.0/18") (Port.tcp 443) \/
       r = mkIngressRule (Peer.ipv4 "10.0.192.0/18") (Port.tcp 443) \/
       r = mkIngressRule (Peer.ipv4 "10.0.0.0/16") (Port.tcp 443)).
Proof.
  runs (setupVpc evenSplit (super "Stack" virginia)) Hvpc.
  match type of Hvpc with
  | _ = Done tt ?s => runs (setupVpcEndpointsForEcr s) Hep
  end.
  match type of Hep with
  | _ = Done tt ?s1 => runs (callAll evenSplit [SetupAlb; SetupEcsService] s1) Hms
  end.
  destruct (endpoint_group_follows_network _ _ _ _ _ Hep Hms)
    as (v & net & g & Hv & Hnet & _ & _ & Hg & _ & _ & Hrules).
  eexists _, _, _, g. split; [reflexivity|]. split; [exact Hep|]. split; [exact Hms|].
  split; [exact Hg|].
  simpl in Hv. injection Hv as <-. vm_compute in Hnet. injection Hnet as <-.
  intros r Hr. apply Hrules in Hr as [(sn & Hin & Ht & ->)| ->].
  - clear Hvpc Hep Hms Hg Hrules.
    each_member Hin; try discriminate Ht; [left; reflexivity|right; left; reflexivity].
  - right. right. reflexivity.
Defined.


Lemma cluster_builds_its_own_network_virginia :
  exists s1 s' net,
    callAll evenSplit [SetupVpc; SetupAlb] (super "Stack" virginia) = Done tt s1 /\
    vpc (withoutVpc s1) = None /\
    setupEcsService evenSplit (withoutVpc s1) = Done tt s' /\
    child "ECSCluster/Vpc" s' = Some (CVpc net) /\
    availabilityZones net = ["us-east-1a"; "us-east-1b"] /\
    natGateways net = 2%nat.
Proof.
  runs (callAll evenSplit [SetupVpc; SetupAlb] (super "Stack" virginia)) Hrun.
  match type of Hrun with
  | _ = Done tt ?s1 => runs (setupEcsService evenSplit (withoutVpc s1)) Hecs
  end.
  match type of Hecs with
  | setupEcsService _ ?s0 = Done tt ?s' =>
      destruct (cluster_builds_its_own_network evenSplit s0 s' eq_refl Hecs)
        as (_ & _ & net & f & _ & Hnet & Hazs & _ & Hnat & _)
  end.
  eexists _, _, net. split; [reflexivity|]. split; [reflexivity|].
  split; [exact Hecs|]. split; [exact Hnet|].
  split; [exact Hazs|]. rewrite Hnat, Hazs. reflexivity.
Defined.

Lemma endpoint_services_and_region_ireland :
  zones (env ireland) <> [] /\
  exists st dkr logs,
    constructor evenSplit "Stack" ireland = Done tt st /\
    child "VPC/EcrInterfaceEndpointDkr" st = Some (CInterfaceVpcEndpoint dkr) /\
    child "VPC/CloudWatchInterfaceEndpoint" st = Some (CInterfaceVpcEndpoint logs) /\
    serviceName (ifaceService logs) = "com.amazonaws.eu-west-1.logs" /\
    serviceName (ifaceService dkr) = "com.amazonaws.us-east-1.ecr.dkr" /\
    serviceName (ifaceService dkr) <> "com.amazonaws.eu-west-1.ecr.dkr".
Proof.
  assert (Hz : zones (env ireland) <> []) by discriminate.
  split; [exact Hz|].
  destruct (endpoint_services_and_region evenSplit "Stack" ireland Hz)
    as (st & dkr & api & logs & s3 & Hrun & Hdkr & _ & Hlogs & _ & Hl & _ & Hd & _ & Hpin & _).
  exists st, dkr, logs. split; [exact Hrun|]. split; [exact Hdkr|]. split; [exact Hlogs|].
  split; [exact Hl|]. split; [exact Hd|].
  intros Heq. apply Hpin in Heq. discriminate Heq.
Defined.

Lemma one_subnet_list_for_all_virginia :
  zones (env virginia) <> [] /\
  exists st k s3,
    constructor evenSplit "Stack" virginia = Done tt st /\
    child "HttpVpcLink" st = Some (CVpcLink k) /\
    child "VPC/S3GatewayEndpoint" st = Some (CGatewayVpcEndpoint s3) /\
    availabilityZone <$> linkSubnets k = ["us-east-1a"; "us-east-1b"] /\
    gwSubnets s3 = [linkSubnets k].
Proof.
  assert (Hz : zones (env virginia) <> []) by discriminate.
  split; [exact Hz|].
  destruct (one_subnet_list_for_all evenSplit "Stack" virginia Hz)
    as (st & net & b & f & dkr & api & logs & s3 & k & Hrun & _ & _ & _ & _ & _ & _ & Hs3 &
        Hk & _ & _ & _ & _ & Hgw & Hlink & Hzones).
  exists st, k, s3. split; [exact Hrun|]. split; [exact Hk|]. split; [exact Hs3|].
  rewrite Hlink, Hgw. split; [exact Hzones|reflexivity].
Defined.

Lemma no_zone_no_load_balancer_at_noZone :
  zones (env noZone) = [] /\
  exists e, constructor evenSplit "Stack" noZone = Thrown e.
Proof.
  split; [reflexivity|].
  destruct (no_zone_no_load_balancer evenSplit "Stack" noZone eq_refl)
    as (s1 & net & msg & _ & _ & _ & _ & Hthrown).
  exists (ConstructError msg). exact Hthrown.
Defined.

Lemma one_port_along_the_path_virginia :
  zones (env virginia) <> [] /\
  exists st gA c,
    constructor evenSplit "Stack" virginia = Done tt st /\
    child targetGroupA st = Some (CApplicationTargetGroup gA) /\
    child "EcsTaskDefinition/SampleApi" st = Some (CContainerDefinition c) /\
    targetContainerPort <$> targets gA = containerPort <$> portMappings c.
Proof.
  assert (Hz : zones (env virginia) <> []) by discriminate.
  split; [exact Hz|].
  destruct (one_port_along_the_path evenSplit "Stack" virginia Hz)
    as (st & g & lst & gA & gB & c & Hrun & _ & _ & HgA & _ & Hc & _ & _ & Hgroups & Hports).
  exists st, gA, c. split; [exact Hrun|]. split; [exact HgA|]. split; [exact Hc|].
  apply Forall_cons in Hgroups as [(_ & Hport & Htargets) _].
  rewrite Htargets, Hports, Hport. reflexivity.
Defined.
